(** * The MCP protocol client and auth detector of ai_mcp_crawler_complete.py

    A shallow embedding of [MCPProtocolClient] (process start-up, the
    JSON-RPC exchange over the child's pipes, clean-up) and of
    [MCPAuthDetector.extract_auth_from_mcp_result], followed by the
    properties of the protocol-client specification.

    Text is modelled as ASCII strings: [upper], [lower], [strip] and the
    regular-expression classes act on the ASCII range only. *)

From Stdlib Require Import String Ascii List ZArith Bool Lia PrimFloat Sorted.
Import ListNotations.
Local Open Scope string_scope.
Local Open Scope list_scope.
Set Warnings "-register-all".

(** ** Python values and exceptions *)

Module Py.

(** The values [json.loads] produces and the values of the result dicts.
    A dict is its list of items in insertion order. *)
Inductive value : Type :=
| VNone
| VBool (b : bool)
| VInt (z : Z)
| VFloat (f : float)
| VStr (s : string)
| VList (l : list value)
| VDict (items : list (string * value)).

Definition dict := list (string * value).

(** The exception classes the client can meet. [OSError] stands for the
    I/O errors of the pipes and of [Popen] (BrokenPipeError,
    FileNotFoundError, ...). *)
Inductive exn : Type :=
| JSONDecodeError (msg : string)
| AttributeError (ty attr : string)
| TypeError (msg : string)
| OSError (msg : string)
| OtherError (msg : string).

(** [str(e)] *)
Definition str_exn (e : exn) : string :=
  match e with
  | JSONDecodeError m => m
  | AttributeError ty attr =>
      "'" ++ ty ++ "' object has no attribute '" ++ attr ++ "'"
  | TypeError m => m
  | OSError m => m
  | OtherError m => m
  end.

(** A pure evaluation that may raise. *)
Inductive res (A : Type) : Type :=
| Ok (a : A)
| Err (e : exn).
Arguments Ok {A} a.
Arguments Err {A} e.

Definition rbind {A B} (m : res A) (k : A -> res B) : res B :=
  match m with
  | Ok a => k a
  | Err e => Err e
  end.

(** [type(v).__name__] *)
Definition type_name (v : value) : string :=
  match v with
  | VNone => "NoneType"
  | VBool _ => "bool"
  | VInt _ => "int"
  | VFloat _ => "float"
  | VStr _ => "str"
  | VList _ => "list"
  | VDict _ => "dict"
  end.

Definition is_empty (s : string) : bool :=
  match s with
  | EmptyString => true
  | String _ _ => false
  end.

(** [bool(v)] *)
Definition truthy (v : value) : bool :=
  match v with
  | VNone => false
  | VBool b => b
  | VInt z => negb (Z.eqb z 0)
  | VFloat f => negb (PrimFloat.eqb f PrimFloat.zero)
  | VStr s => negb (is_empty s)
  | VList l => match l with [] => false | _ :: _ => true end
  | VDict items => match items with [] => false | _ :: _ => true end
  end.

Fixpoint lookup (k : string) (items : dict) : option value :=
  match items with
  | [] => None
  | (k', v) :: rest => if String.eqb k k' then Some v else lookup k rest
  end.

(** [d.get(k, default)] on a dict *)
Definition dict_get (d : dict) (k : string) (default : value) : value :=
  match lookup k d with
  | Some v => v
  | None => default
  end.

(** [o.get(k, default)] on any value: only a dict has [get]. *)
Definition get (o : value) (k : string) (default : value) : res value :=
  match o with
  | VDict items => Ok (dict_get items k default)
  | _ => Err (AttributeError (type_name o) "get")
  end.

(** [o.keys()] *)
Definition keys (o : value) : res (list string) :=
  match o with
  | VDict items => Ok (map fst items)
  | _ => Err (AttributeError (type_name o) "keys")
  end.

(** [o.lower()] *)
Definition lower_ascii (c : ascii) : ascii :=
  let n := nat_of_ascii c in
  if andb (Nat.leb 65 n) (Nat.leb n 90) then ascii_of_nat (n + 32) else c.

Definition upper_ascii (c : ascii) : ascii :=
  let n := nat_of_ascii c in
  if andb (Nat.leb 97 n) (Nat.leb n 122) then ascii_of_nat (n - 32) else c.

Fixpoint smap (f : ascii -> ascii) (s : string) : string :=
  match s with
  | EmptyString => EmptyString
  | String c r => String (f c) (smap f r)
  end.

Definition lower (s : string) : string := smap lower_ascii s.
Definition upper (s : string) : string := smap upper_ascii s.

Definition str_lower (o : value) : res string :=
  match o with
  | VStr s => Ok (lower s)
  | _ => Err (AttributeError (type_name o) "lower")
  end.

(** [len(o)] *)
Definition len (o : value) : res Z :=
  match o with
  | VStr s => Ok (Z.of_nat (String.length s))
  | VList l => Ok (Z.of_nat (List.length l))
  | VDict items => Ok (Z.of_nat (List.length items))
  | _ => Err (TypeError ("object of type '" ++ type_name o ++ "' has no len()"))
  end.

Fixpoint chars (s : string) : list value :=
  match s with
  | EmptyString => []
  | String c r => VStr (String c EmptyString) :: chars r
  end.

(** The elements a [for] loop over [o] visits. *)
Definition iter (o : value) : res (list value) :=
  match o with
  | VList l => Ok l
  | VStr s => Ok (chars s)
  | VDict items => Ok (map (fun kv => VStr (fst kv)) items)
  | _ => Err (TypeError ("'" ++ type_name o ++ "' object is not iterable"))
  end.

Fixpoint sfirstn (n : nat) (s : string) : string :=
  match n, s with
  | O, _ => EmptyString
  | S _, EmptyString => EmptyString
  | S m, String c r => String c (sfirstn m r)
  end.

(** [o[:n]]; a dict cannot be sliced. *)
Definition slice_to (n : nat) (o : value) : res value :=
  match o with
  | VList l => Ok (VList (firstn n l))
  | VStr s => Ok (VStr (sfirstn n s))
  | VDict _ => Err (TypeError "unhashable type: 'slice'")
  | _ => Err (TypeError ("'" ++ type_name o ++ "' object is not subscriptable"))
  end.

(** [for x in l: f(x)], stopping at the first exception *)
Fixpoint for_each (f : value -> res unit) (l : list value) : res unit :=
  match l with
  | [] => Ok tt
  | x :: rest => rbind (f x) (fun _ => for_each f rest)
  end.

(** ** Strings *)

(** [str.isspace] on one ASCII character *)
Definition is_space (c : ascii) : bool :=
  let n := nat_of_ascii c in
  orb (andb (Nat.leb 9 n) (Nat.leb n 13))
      (orb (andb (Nat.leb 28 n) (Nat.leb n 32)) false).

Fixpoint lstrip (s : string) : string :=
  match s with
  | EmptyString => EmptyString
  | String c r => if is_space c then lstrip r else s
  end.

Fixpoint rstrip (s : string) : string :=
  match s with
  | EmptyString => EmptyString
  | String c r =>
      match rstrip r with
      | EmptyString => if is_space c then EmptyString else String c EmptyString
      | r' => String c r'
      end
  end.

(** [s.strip()] *)
Definition strip (s : string) : string := rstrip (lstrip s).

(** [s.split(sep)] for a one-character separator *)
Fixpoint split (sep : ascii) (s : string) : list string :=
  match s with
  | EmptyString => [EmptyString]
  | String c r =>
      if Ascii.eqb c sep then EmptyString :: split sep r
      else match split sep r with
           | h :: t => String c h :: t
           | [] => [String c EmptyString]
           end
  end.

(** [s.startswith(p)] *)
Definition startswith (p s : string) : bool := String.prefix p s.

(** [k in s]: [k] occurs in [s] as a substring *)
Fixpoint contains (k s : string) : bool :=
  orb (String.prefix k s)
      match s with
      | EmptyString => false
      | String _ r => contains k r
      end.

End Py.

Import Py.

(** ** The child process *)

(** An operation on the child that cannot be stopped by a deadline
    either returns, raises, or never returns. *)
Inductive reply (A : Type) : Type :=
| Gives (a : A)
| Throws (e : exn)
| Stalls.
Arguments Gives {A} a.
Arguments Throws {A} e.
Arguments Stalls {A}.

(** What the client does with a [subprocess.Popen] object, as transitions
    of the world [W] the child lives in. [select] with its 0.1 s deadline,
    [poll], the writes of one short line and the signals return or raise;
    [read] and [readline] are called without a deadline, so they have the
    three answers of [reply]. *)
Record Popen (W : Type) : Type := {
  popen : list string -> W -> res unit * W;
  sleep : nat -> W -> W;
  poll : W -> option Z * W;
  stdin_write : string -> W -> res unit * W;
  stdin_flush : W -> res unit * W;
  select_stderr : W -> res bool * W;
  stderr_read : W -> reply string * W;
  stdout_readline : W -> reply string * W;
  terminate : W -> res unit * W;
  kill : W -> res unit * W
}.
Arguments popen {W}.
Arguments sleep {W}.
Arguments poll {W}.
Arguments stdin_write {W}.
Arguments stdin_flush {W}.
Arguments select_stderr {W}.
Arguments stderr_read {W}.
Arguments stdout_readline {W}.
Arguments terminate {W}.
Arguments kill {W}.

(** ** The requests of one session *)

Definition init_request : value :=
  VDict [("jsonrpc", VStr "2.0");
         ("id", VInt 1);
         ("method", VStr "initialize");
         ("params", VDict
            [("protocolVersion", VStr "2024-11-05");
             ("capabilities", VDict
                [("roots", VDict [("listChanged", VBool true)]);
                 ("sampling", VDict [])]);
             ("clientInfo", VDict
                [("name", VStr "e14z-ai-crawler");
                 ("version", VStr "1.0.0")])])].

Definition tools_request : value :=
  VDict [("jsonrpc", VStr "2.0"); ("id", VInt 2);
         ("method", VStr "tools/list"); ("params", VDict [])].

Definition resources_request : value :=
  VDict [("jsonrpc", VStr "2.0"); ("id", VInt 3);
         ("method", VStr "resources/list"); ("params", VDict [])].

Definition prompts_request : value :=
  VDict [("jsonrpc", VStr "2.0"); ("id", VInt 4);
         ("method", VStr "prompts/list"); ("params", VDict [])].

(** The sequence id of a request; 0 when there is none. *)
Definition request_id (r : value) : Z :=
  match r with
  | VDict items => match lookup "id" items with
                   | Some (VInt z) => z
                   | _ => 0%Z
                   end
  | _ => 0%Z
  end.

Definition request_method (r : value) : string :=
  match r with
  | VDict items => match lookup "method" items with
                   | Some (VStr m) => m
                   | _ => ""
                   end
  | _ => ""
  end.

(** A list request is any request of the session but [initialize]. *)
Definition is_list_request (r : value) : bool :=
  orb (String.eqb (request_method r) "tools/list")
      (orb (String.eqb (request_method r) "resources/list")
           (String.eqb (request_method r) "prompts/list")).

Definition newline : string := String (ascii_of_nat 10) EmptyString.

(** ** The session monad *)

(** One connection attempt: the world of the child and the requests
    written to its input so far, oldest first. *)
Record session (W : Type) : Type := {
  world : W;
  sent : list value
}.
Arguments world {W}.
Arguments sent {W}.

(** How a computation of the client ends: it returns, it raises, or it
    waits for the child for ever. *)
Inductive run (W A : Type) : Type :=
| Returned (a : A) (s : session W)
| Raised (e : exn) (s : session W)
| Hung (s : session W).
Arguments Returned {W A} a s.
Arguments Raised {W A} e s.
Arguments Hung {W A} s.

Definition final {W A} (r : run W A) : session W :=
  match r with
  | Returned _ s => s
  | Raised _ s => s
  | Hung s => s
  end.

Definition M (W A : Type) : Type := session W -> run W A.

Definition ret {W A} (a : A) : M W A := fun s => Returned a s.

Definition raise {W A} (e : exn) : M W A := fun s => Raised e s.

Definition bind {W A B} (m : M W A) (k : A -> M W B) : M W B :=
  fun s =>
    match m s with
    | Returned a s' => k a s'
    | Raised e s' => Raised e s'
    | Hung s' => Hung s'
    end.

(** [try: m  except Exception as e: h e] (a bare [except:] alike) *)
Definition try_except {W A} (m : M W A) (h : exn -> M W A) : M W A :=
  fun s =>
    match m s with
    | Returned a s' => Returned a s'
    | Raised e s' => h e s'
    | Hung s' => Hung s'
    end.

(** A pure evaluation inside the session. *)
Definition lift {W A} (r : res A) : M W A :=
  match r with
  | Ok a => ret a
  | Err e => raise e
  end.

Definition io {W A} (op : W -> res A * W) : M W A :=
  fun s =>
    let (r, w) := op (world s) in
    let s' := {| world := w; sent := sent s |} in
    match r with
    | Ok a => Returned a s'
    | Err e => Raised e s'
    end.

Definition io_wait {W A} (op : W -> reply A * W) : M W A :=
  fun s =>
    let (r, w) := op (world s) in
    let s' := {| world := w; sent := sent s |} in
    match r with
    | Gives a => Returned a s'
    | Throws e => Raised e s'
    | Stalls => Hung s'
    end.

Definition record_sent {W} (req : value) : M W unit :=
  fun s => Returned tt {| world := world s; sent := sent s ++ [req] |}.

Declare Scope session_scope.
Delimit Scope session_scope with session.
Notation "x <- m ;; k" := (bind m (fun x => k))
  (at level 100, m at next level, right associativity) : session_scope.
Notation "m ;; k" := (bind m (fun _ => k))
  (at level 100, right associativity) : session_scope.
Notation "x <~ r ;; k" := (rbind r (fun x => k))
  (at level 100, r at next level, right associativity).

(** ** MCPProtocolClient *)

(** [[cmd] + args] as [_start_mcp_server] splits the command line. *)
Definition parse_command (command : string) : list string :=
  let cmd_parts := split " " command in
  let cmd := if startswith "npx " command then "npx" else hd "" cmd_parts in
  let args := tl cmd_parts in
  cmd :: args.

Section Client.

Variable W : Type.
Variable P : Popen W.

(** [json.dumps] and [json.loads] of the Python library. *)
Variable json_dumps : value -> string.
Variable json_loads : string -> res value.

Local Open Scope session_scope.

(** [process.stdin.write(json.dumps(req) + '\n'); process.stdin.flush()] *)
Definition write_request (req : value) : M W unit :=
  io (stdin_write P (json_dumps req ++ newline)) ;;
  record_sent req ;;
  io (stdin_flush P).

(** [process.stdout.readline()] *)
Definition readline : M W string := io_wait (stdout_readline P).

(** The look at stderr after the initialize request: whatever goes wrong
    is passed over and leaves [stderr_data] empty. *)
Definition peek_stderr : M W string :=
  try_except
    (stderr_available <- io (select_stderr P) ;;
     if (stderr_available : bool)
     then io_wait (stderr_read P)
     else ret "")
    (fun _ => ret "").

Record handshake : Type := {
  protocol_version : value;
  server_info : value;
  capabilities : value;
  stderr_data : string
}.

(** [json.loads(line.strip())] followed by the look-up of a key of its
    result, as the [try] blocks of the client evaluate them. *)
Definition result_of (response : value) (key : string) (default : value)
  : res value :=
  result <~ get response "result" (VDict []) ;;
  get result key default.

(** The initialize request, the look at stderr and the read of one line:
    the values of [stderr_data] and [response_line]. *)
Definition ask_initialize : M W (string * string) :=
  write_request init_request ;;
  stderr_data <- peek_stderr ;;
  response_line <- readline ;;
  ret (stderr_data, response_line).

(** What the client makes of the line read. [inl d] is an early
    [return d]. *)
Definition read_initialize (stderr_data response_line : string)
  : res (dict + handshake) :=
  if is_empty response_line then
    Ok (inl [("success", VBool false);
             ("error", VStr "No response from server");
             ("stderr", VStr stderr_data)])
  else
    match (init_response <~ json_loads (strip response_line) ;;
           _ <~ result_of init_response "protocolVersion"
                  (VStr "unknown version") ;;
           Ok init_response) with
    | Err (JSONDecodeError _) =>
        Ok (inl [("success", VBool false);
                 ("error", VStr "Invalid JSON response");
                 ("stderr", VStr stderr_data);
                 ("raw_response", VStr (sfirstn 200 response_line))])
    | Err e => Err e
    | Ok init_response =>
        result <~ get init_response "result" (VDict []) ;;
        protocol_version <~ get result "protocolVersion" VNone ;;
        server_info <~ get result "serverInfo" (VDict []) ;;
        capabilities <~ get result "capabilities" (VDict []) ;;
        _ <~ keys capabilities ;;
        Ok (inr {| protocol_version := protocol_version;
                   server_info := server_info;
                   capabilities := capabilities;
                   stderr_data := stderr_data |})
    end.

(** The initialize exchange. *)
Definition negotiate : M W (dict + handshake) :=
  asked <- ask_initialize ;;
  lift (read_initialize (fst asked) (snd asked)).

(** The body of the loop that logs every tool. *)
Definition log_tool (tool : value) : res unit :=
  _ <~ get tool "name" (VStr "unnamed") ;;
  _ <~ get tool "description" (VStr "no description") ;;
  schema <~ get tool "inputSchema" (VDict []) ;;
  tool_params <~ get schema "properties" (VDict []) ;;
  if truthy tool_params then (_ <~ keys tool_params ;; Ok tt) else Ok tt.

(** What the [try] block around a parsed tools line leaves in [tools]. *)
Definition read_tools (tools_line : string) : res value :=
  tools_response <~ json_loads (strip tools_line) ;;
  found <~ result_of tools_response "tools" VNone ;;
  if truthy found then
    _ <~ len found ;;
    each <~ iter found ;;
    _ <~ for_each log_tool each ;;
    Ok found
  else Ok (VList []).

(** The tools/list exchange; the value returned is that of [tools]. *)
Definition list_tools : M W value :=
  write_request tools_request ;;
  tools_line <- readline ;;
  if is_empty tools_line then ret (VList [])
  else
    match read_tools tools_line with
    | Err (JSONDecodeError _) => ret (VList [])
    | Err e => raise e
    | Ok tools => ret tools
    end.

(** The body of the loops that log the first three resources or prompts. *)
Definition log_named (item : value) : res unit :=
  _ <~ get item "name" (VStr "unnamed") ;;
  _ <~ get item "description" (VStr "no desc") ;;
  Ok tt.

Definition log_first_three (found : value) : res unit :=
  _ <~ len found ;;
  first <~ slice_to 3 found ;;
  each <~ iter first ;;
  for_each log_named each.

(** An exception that [except json.JSONDecodeError: pass] lets through. *)
Definition not_decode_error (e : exn) : option exn :=
  match e with
  | JSONDecodeError _ => None
  | _ => Some e
  end.

(** What a parsed resources or prompts line leaves in the local variable
    ([resources] or [prompts], initially the empty list), and the
    exception, if any, that leaves the inner [try] with it. *)
Definition read_listing (key : string) (line : string) : value * option exn :=
  match json_loads (strip line) with
  | Err e => (VList [], not_decode_error e)
  | Ok response =>
      match result_of response key VNone with
      | Err e => (VList [], not_decode_error e)
      | Ok found =>
          if truthy found then
            match log_first_three found with
            | Ok _ => (found, None)
            | Err e => (found, not_decode_error e)
            end
          else (VList [], None)
      end
  end.

(** One of the two exchanges inside [try: ... except Exception as e]. *)
Definition list_extra (req : value) (key : string)
  : M W (value * option exn) :=
  try_except
    (write_request req ;;
     line <- readline ;;
     ret (if is_empty line then (VList [], None) else read_listing key line))
    (fun e => ret (VList [], Some e)).

(** The block that asks for resources, then prompts; an exception in it
    is logged and the block is left. The values returned are those of
    [resources] and [prompts] after the block. *)
Definition list_additional : M W (value * value) :=
  r <- list_extra resources_request "resources" ;;
  match snd r with
  | Some _ => ret (fst r, VList [])
  | None =>
      p <- list_extra prompts_request "prompts" ;;
      ret (fst r, fst p)
  end.

Definition success_result (h : handshake) (tools resources prompts : value)
  (n_tools n_resources n_prompts : Z) : dict :=
  [("success", VBool true);
   ("tools", tools);
   ("resources", resources);
   ("prompts", prompts);
   ("protocol_version", protocol_version h);
   ("server_info", server_info h);
   ("capabilities", capabilities h);
   ("total_functionality", VInt (n_tools + n_resources + n_prompts));
   ("functionality_breakdown", VDict
      [("tools_count", VInt n_tools);
       ("resources_count", VInt n_resources);
       ("prompts_count", VInt n_prompts);
       ("has_capabilities", VBool (truthy (capabilities h)));
       ("has_server_info", VBool (truthy (server_info h)))]);
   ("stderr", VStr (stderr_data h));
   ("additional_data", VDict [])].

(** The counts and the result dict after the three exchanges; [len] of
    a value that has none raises. *)
Definition summarise (h : handshake) (tools resources prompts : value)
  : res dict :=
  n_tools <~ len tools ;;
  n_resources <~ len resources ;;
  n_prompts <~ len prompts ;;
  Ok (success_result h tools resources prompts n_tools n_resources n_prompts).

(** The three list exchanges and the summary, after a handshake. *)
Definition collect_lists (h : handshake) : M W dict :=
  tools <- list_tools ;;
  extra <- list_additional ;;
  lift (summarise h tools (fst extra) (snd extra)).

(** The handler of the outer [try]: read what stderr holds, if that
    works, and report the exception. *)
Definition communication_failed (e : exn) : M W dict :=
  stderr_data <- try_except (io_wait (stderr_read P)) (fun _ => ret "") ;;
  ret [("success", VBool false);
       ("error", VStr (str_exn e));
       ("stderr", VStr stderr_data)].

Definition _communicate_with_server : M W dict :=
  try_except
    (n <- negotiate ;;
     match n with
     | inl early => ret early
     | inr h => collect_lists h
     end)
    communication_failed.

(** [None] of the source is [false] here, the process is [true]. *)
Definition _start_mcp_server (command : string) : M W bool :=
  try_except
    (io (popen P (parse_command command)) ;;
     io (fun w => (Ok tt, sleep P 3 w)) ;;
     code <- io (fun w => let (c, w') := poll P w in (Ok c, w')) ;;
     match code with
     | None => ret true
     | Some _ => ret false
     end)
    (fun _ => ret false).

Definition _cleanup_process : M W unit :=
  try_except
    (code <- io (fun w => let (c, w') := poll P w in (Ok c, w')) ;;
     match code with
     | None =>
         io (terminate P) ;;
         io (fun w => (Ok tt, sleep P 1 w)) ;;
         code' <- io (fun w => let (c, w') := poll P w in (Ok c, w')) ;;
         match code' with
         | None => io (kill P)
         | Some _ => ret tt
         end
     | Some _ => ret tt
     end)
    (fun _ => ret tt).

Definition connect_to_mcp (install_command : string) : M W dict :=
  try_except
    (process <- _start_mcp_server install_command ;;
     if negb process then
       ret [("success", VBool false);
            ("error", VStr "Failed to start MCP server")]
     else
       result <- _communicate_with_server ;;
       _cleanup_process ;;
       ret result)
    (fun e => ret [("success", VBool false); ("error", VStr (str_exn e))]).

End Client.

(** ** Regular expressions

    The fragment of Python's [re] that the detector's patterns use:
    sequences of single characters, classes, [?] and [{n,}] on a class,
    and one capturing group; backtracking, greedy, leftmost. *)

Module Re.

Inductive cls : Type :=
| Chr (c : ascii)
| Range (lo hi : ascii)
| Space
| Union (a b : cls).

Inductive item : Type :=
| One (c : cls)
| Opt (c : cls)
| AtLeast (n : nat) (c : cls).

Record pattern : Type := {
  before : list item;
  group : list item;
  after : list item
}.

Definition in_range (lo hi a : ascii) : bool :=
  andb (Nat.leb (nat_of_ascii lo) (nat_of_ascii a))
       (Nat.leb (nat_of_ascii a) (nat_of_ascii hi)).

(** Does the class accept the character? [ic] is [re.IGNORECASE]. *)
Fixpoint accepts (ic : bool) (c : cls) (a : ascii) : bool :=
  match c with
  | Chr x =>
      if ic then Ascii.eqb (lower_ascii a) (lower_ascii x) else Ascii.eqb a x
  | Range lo hi =>
      if ic then orb (in_range lo hi (lower_ascii a))
                     (in_range lo hi (upper_ascii a))
      else in_range lo hi a
  | Space => is_space a
  | Union x y => orb (accepts ic x a) (accepts ic y a)
  end.

(** [c{n,}]: as many characters as possible, giving back one at a time. *)
Fixpoint greedy {R} (p : ascii -> bool) (n : nat) (s : string)
  (k : string -> option R) : option R :=
  let stop := match n with O => k s | S _ => None end in
  match s with
  | String a s' =>
      if p a then
        match greedy p (Nat.pred n) s' k with
        | Some r => Some r
        | None => stop
        end
      else stop
  | EmptyString => stop
  end.

Fixpoint match_items {R} (ic : bool) (items : list item) (s : string)
  (k : string -> option R) : option R :=
  match items with
  | [] => k s
  | One c :: rest =>
      match s with
      | String a s' => if accepts ic c a then match_items ic rest s' k else None
      | EmptyString => None
      end
  | Opt c :: rest =>
      match (match s with
             | String a s' =>
                 if accepts ic c a then match_items ic rest s' k else None
             | EmptyString => None
             end) with
      | Some r => Some r
      | None => match_items ic rest s k
      end
  | AtLeast n c :: rest =>
      greedy (accepts ic c) n s (fun s' => match_items ic rest s' k)
  end.

(** A match of the pattern at the start of [s]: the text of the group
    and what follows the match. *)
Definition match_at (ic : bool) (p : pattern) (s : string)
  : option (string * string) :=
  match_items ic (before p) s (fun s1 =>
  match_items ic (group p) s1 (fun s2 =>
  match_items ic (after p) s2 (fun s3 =>
    Some (sfirstn (String.length s1 - String.length s2) s1, s3)))).

Fixpoint findall_from (fuel : nat) (ic : bool) (p : pattern) (s : string)
  : list string :=
  match fuel with
  | O => []
  | S fuel' =>
      match match_at ic p s with
      | Some (g, rest) =>
          if Nat.ltb (String.length rest) (String.length s)
          then g :: findall_from fuel' ic p rest
          else g :: match s with
                    | EmptyString => []
                    | String _ s' => findall_from fuel' ic p s'
                    end
      | None =>
          match s with
          | EmptyString => []
          | String _ s' => findall_from fuel' ic p s'
          end
      end
  end.

(** [re.findall(p, s)] for a pattern with one group *)
Definition findall (ic : bool) (p : pattern) (s : string) : list string :=
  findall_from (S (String.length s)) ic p s.

(** A literal piece of a pattern. *)
Fixpoint lits (s : string) : list item :=
  match s with
  | EmptyString => []
  | String c r => One (Chr c) :: lits r
  end.

End Re.

(** ** MCPAuthDetector *)

(** [[A-Z]] and [[A-Z0-9_]] *)
Definition upper_letter : Re.cls := Re.Range "A" "Z".
Definition ident_char : Re.cls :=
  Re.Union (Re.Range "A" "Z") (Re.Union (Re.Range "0" "9") (Re.Chr "_")).

(** [([A-Z][A-Z0-9_]{n,})] *)
Definition name_group (n : nat) : list Re.item :=
  [Re.One upper_letter; Re.AtLeast n ident_char].

Definition around (pre post : list Re.item) : Re.pattern :=
  {| Re.before := pre; Re.group := name_group 3; Re.after := post |}.

Definition auth_error_patterns : list Re.pattern :=
  [around (Re.lits "missing required environment variable"
             ++ [Re.AtLeast 1 (Re.Union (Re.Chr ":") Re.Space)]) [];
   around (Re.lits "environment variable ") (Re.lits " is required");
   around (Re.lits "please set ") [];
   around [] (Re.lits " not found");
   around [] (Re.lits " is not set");
   around (Re.lits "missing ") [];
   around (Re.lits "require" ++ [Re.Opt (Re.Chr "s"); Re.One (Re.Chr " ")]) [];
   around (Re.lits "set the ") (Re.lits " environment variable")].

(** [r'([A-Z][A-Z0-9_]{4,})'] *)
Definition env_mention : Re.pattern :=
  {| Re.before := []; Re.group := name_group 4; Re.after := [] |}.

Definition error_keywords : list string :=
  ["key"; "token"; "secret"; "auth"; "api"; "url"; "client"].

Definition stderr_keywords : list string :=
  ["key"; "token"; "secret"; "auth"; "api"].

(** [any(keyword in s.lower() for keyword in keywords)] *)
Definition mentions (keywords : list string) (s : string) : bool :=
  existsb (fun keyword => contains keyword (lower s)) keywords.

Definition nonempty {A} (l : list A) : bool :=
  match l with
  | [] => false
  | _ :: _ => true
  end.

(** The names the error patterns detect in the combined error text. *)
Definition detect_in_errors (all_errors : string) : list string :=
  flat_map
    (fun pattern =>
       map upper
         (filter (mentions error_keywords)
            (Re.findall true pattern all_errors)))
    auth_error_patterns.

Section Detector.

(** How an f-string renders a value. *)
Variable format_value : value -> string.

(** [list(set(l))]: the distinct elements of [l], in an order that the
    language leaves open. *)
Variable list_of_set : list string -> list string.

Definition combined_errors (mcp_result : dict) : string :=
  upper (format_value (dict_get mcp_result "error" (VStr "")) ++ " "
         ++ format_value (dict_get mcp_result "stderr" (VStr ""))).

(** The names the first tier appends to [detected_env_vars]. *)
Definition tier1 (mcp_result : dict) : list string :=
  if negb (truthy (dict_get mcp_result "success" (VBool false))) then
    let all_errors := combined_errors mcp_result in
    if negb (is_empty all_errors) then detect_in_errors all_errors else []
  else [].

(** The look at the server info of a successful connection; it only
    logs, but it evaluates [get] and [lower]. *)
Definition inspect_server_info (mcp_result : dict) : res unit :=
  let server_info := dict_get mcp_result "server_info" (VDict []) in
  if truthy server_info then
    server_name <~ get server_info "name" (VStr "") ;;
    _ <~ str_lower server_name ;;
    server_version <~ get server_info "version" (VStr "") ;;
    _ <~ str_lower server_version ;;
    Ok tt
  else Ok tt.

(** The names the third tier appends. *)
Definition tier3 (mcp_result : dict) : res (list string) :=
  let stderr := dict_get mcp_result "stderr" (VStr "") in
  if truthy stderr then
    match stderr with
    | VStr text =>
        Ok (filter (mentions stderr_keywords) (Re.findall false env_mention text))
    | _ => Err (TypeError ("expected string or bytes-like object, got '"
                           ++ type_name stderr ++ "'"))
    end
  else Ok [].

Definition extract_auth_from_mcp_result (mcp_result : dict)
  : res (bool * list string) :=
  let detected_env_vars := tier1 mcp_result in
  if andb (negb (truthy (dict_get mcp_result "success" (VBool false))))
          (nonempty detected_env_vars)
  then Ok (true, list_of_set detected_env_vars)
  else if truthy (dict_get mcp_result "success" (VBool false)) then
    _ <~ inspect_server_info mcp_result ;;
    Ok (false, [])
  else
    mentioned <~ tier3 mcp_result ;;
    let unique_env_vars := firstn 5 (list_of_set (detected_env_vars ++ mentioned)) in
    Ok (nonempty unique_env_vars, unique_env_vars).

End Detector.

(** ** A scripted child, for running the client on concrete servers *)

Module Script.

(** The answers a child will give, consumed in order. When [writes] runs
    out a write succeeds; when [lines] runs out [readline] reads the end
    of the stream. *)
Record child : Type := {
  launch : res unit;
  exit_code : option Z;
  writes : list (res unit);
  stderr_ready : bool;
  stderr_text : reply string;
  lines : list (reply string)
}.

Definition write (c : child) : res unit * child :=
  match writes c with
  | [] => (Ok tt, c)
  | r :: rest =>
      (r, {| launch := launch c; exit_code := exit_code c; writes := rest;
             stderr_ready := stderr_ready c; stderr_text := stderr_text c;
             lines := lines c |})
  end.

Definition read_line (c : child) : reply string * child :=
  match lines c with
  | [] => (Gives "", c)
  | r :: rest =>
      (r, {| launch := launch c; exit_code := exit_code c; writes := writes c;
             stderr_ready := stderr_ready c; stderr_text := stderr_text c;
             lines := rest |})
  end.

Definition process : Popen child := {|
  popen := fun _ c => (launch c, c);
  sleep := fun _ c => c;
  poll := fun c => (exit_code c, c);
  stdin_write := fun _ c => write c;
  stdin_flush := fun c => (Ok tt, c);
  select_stderr := fun c => (Ok (stderr_ready c), c);
  stderr_read := fun c => (stderr_text c, c);
  stdout_readline := read_line;
  terminate := fun c => (Ok tt, c);
  kill := fun c => (Ok tt, c)
|}.

(** A server that starts, stays up and answers with the given lines. *)
Definition serving (answers : list string) : child :=
  {| launch := Ok tt; exit_code := None; writes := [];
     stderr_ready := false; stderr_text := Gives "";
     lines := map Gives answers |}.

Definition start (c : child) : session child :=
  {| world := c; sent := [] |}.

Definition quote : string := String (ascii_of_nat 34) EmptyString.

(** ["k"] between double quotes *)
Definition q (k : string) : string := quote ++ k ++ quote.

(** Some lines a server may answer, with the value [json.loads] gives
    for each. *)
Definition line_empty_object : string := "{}" ++ newline.
Definition line_number : string := "5" ++ newline.
Definition line_not_json : string := "Server listening on stdio" ++ newline.
Definition line_error_response : string :=
  "{" ++ q "jsonrpc" ++ ": " ++ q "2.0" ++ ", " ++ q "id" ++ ": 1, "
      ++ q "error" ++ ": {" ++ q "code" ++ ": -32601, "
      ++ q "message" ++ ": " ++ q "Method not found" ++ "}}" ++ newline.
Definition line_bad_server_info : string :=
  "{" ++ q "result" ++ ": {" ++ q "serverInfo" ++ ": {" ++ q "name"
      ++ ": 5}}}" ++ newline.
Definition line_prompts_number : string :=
  "{" ++ q "result" ++ ": {" ++ q "prompts" ++ ": 5}}" ++ newline.

Definition known_lines : list (string * value) :=
  [(strip line_empty_object, VDict []);
   (strip line_number, VInt 5);
   (strip line_error_response,
    VDict [("jsonrpc", VStr "2.0"); ("id", VInt 1);
           ("error", VDict [("code", VInt (-32601));
                            ("message", VStr "Method not found")])]);
   (strip line_bad_server_info,
    VDict [("result", VDict [("serverInfo", VDict [("name", VInt 5)])])]);
   (strip line_prompts_number,
    VDict [("result", VDict [("prompts", VInt 5)])])].

(** [json.loads] on the lines above; any other text used here is not
    JSON. *)
Definition loads (text : string) : res value :=
  match lookup text known_lines with
  | Some v => Ok v
  | None => Err (JSONDecodeError "Expecting value: line 1 column 1 (char 0)")
  end.

(** The scripted child does not look at what it is sent, so the method
    name stands for the serialised request. *)
Definition dumps (request : value) : string := request_method request.

(** A process that has exited with status 1 when the grace period ends,
    having printed nothing. *)
Definition exits_early : child :=
  {| launch := Ok tt; exit_code := Some 1%Z; writes := [];
     stderr_ready := false; stderr_text := Gives "";
     lines := [] |}.

(** A process that stays up and never writes a line to its output. *)
Definition silent : child :=
  {| launch := Ok tt; exit_code := None; writes := [];
     stderr_ready := false; stderr_text := Gives "";
     lines := [Stalls] |}.


Definition command : string := "npx -y some-mcp-server".

Definition connect (command : string) (c : child) : run child dict :=
  connect_to_mcp child process dumps loads command (start c).

Definition communicate (c : child) : run child dict :=
  _communicate_with_server child process dumps loads (start c).

(** [f"{v}"] for the values the examples format. *)
Definition format_value (v : value) : string :=
  match v with
  | VStr s => s
  | VNone => "None"
  | VBool true => "True"
  | VBool false => "False"
  | _ => ""
  end.

Fixpoint dedup (l : list string) : list string :=
  match l with
  | [] => []
  | x :: rest =>
      if existsb (String.eqb x) rest then dedup rest else x :: dedup rest
  end.

Definition extract (mcp_result : dict) : res (bool * list string) :=
  extract_auth_from_mcp_result format_value dedup mcp_result.

End Script.

(** ** MCPInstaller *)

(** [sep.join(l)] *)
Fixpoint join (sep : string) (l : list string) : string :=
  match l with
  | [] => EmptyString
  | [x] => x
  | x :: rest => x ++ sep ++ join sep rest
  end.

Definition _is_typescript_package (package : dict) : bool := true.

Section Installer.

(** How an f-string renders the package name. *)
Variable format_value : value -> string.

Definition generate_install_command (package : dict) : string * string :=
  let name := dict_get package "name" (VStr "") in
  if _is_typescript_package package
  then (("npx " ++ format_value name)%string, "npm")
  else (("npx " ++ format_value name)%string, "npm").

End Installer.

(** ** AIAnalyzer: set-up complexity *)

Definition auth_indicators : list string :=
  ["auth"; "token"; "key"; "credential"; "login"; "password"].

Definition config_indicators : list string :=
  ["config"; "setup"; "install"; "database"; "server"].

(** [sum(1 for indicator in indicators if indicator in text)] *)
Definition count_in (indicators : list string) (text : string) : nat :=
  List.length (filter (fun indicator => contains indicator text) indicators).

Definition _assess_setup_complexity (text : string) (tools : list value)
  : string :=
  let auth_count := count_in auth_indicators text in
  let config_count := count_in config_indicators text in
  if orb (Nat.ltb 3 auth_count) (Nat.ltb 5 config_count) then "complex"
  else if orb (Nat.ltb 1 auth_count) (Nat.ltb 2 config_count) then "moderate"
  else "simple".

(** [needle in o] for a string [needle]: a substring of a string, an
    element of a list, a key of a dict; other values are not iterable. *)
Definition str_in (needle : string) (o : value) : res bool :=
  match o with
  | VStr s => Ok (contains needle s)
  | VList l =>
      Ok (existsb (fun v => match v with
                            | VStr s => String.eqb s needle
                            | _ => false
                            end) l)
  | VDict items => Ok (existsb (fun kv => String.eqb (fst kv) needle) items)
  | _ => Err (TypeError ("argument of type '" ++ type_name o
                         ++ "' is not iterable"))
  end.

(** ** CompleteAIMCPCrawler: the category of a package *)

Definition valid_categories : list string :=
  ["databases"; "payments"; "ai-tools"; "development-tools";
   "cloud-storage"; "messaging"; "content-creation"; "monitoring";
   "project-management"; "security"; "automation"; "social-media";
   "web-apis"; "productivity"; "infrastructure"; "media-processing";
   "finance"; "communication"; "research"; "iot"].

(** The dict of the source, in its insertion order. *)
Definition category_keywords : list (string * list string) :=
  [("databases", ["database"; "postgres"; "mysql"; "mongodb"; "sql"; "sqlite"]);
   ("payments", ["payment"; "stripe"; "paypal"; "billing"; "invoice"]);
   ("ai-tools", ["openai"; "anthropic"; "gpt"; "claude"; "ai"; "llm"; "ml"]);
   ("development-tools", ["git"; "github"; "code"; "dev"; "build"; "test"]);
   ("cloud-storage", ["s3"; "storage"; "bucket"; "drive"; "dropbox"]);
   ("messaging", ["slack"; "discord"; "teams"; "chat"; "message"]);
   ("content-creation", ["content"; "generate"; "create"; "write"]);
   ("monitoring", ["monitor"; "metric"; "log"; "trace"; "alert"]);
   ("project-management", ["project"; "task"; "jira"; "trello"]);
   ("security", ["auth"; "security"; "token"; "permission"; "oauth"]);
   ("automation", ["automate"; "workflow"; "trigger"; "schedule"]);
   ("social-media", ["twitter"; "facebook"; "instagram"; "social"]);
   ("web-apis", ["api"; "rest"; "http"; "web"; "request"; "search"; "brave"]);
   ("productivity", ["calendar"; "note"; "document"; "office"]);
   ("infrastructure", ["deploy"; "server"; "cloud"; "aws"; "azure"]);
   ("media-processing", ["image"; "video"; "audio"; "media"; "ffmpeg"]);
   ("finance", ["finance"; "bank"; "investment"; "trading"]);
   ("communication", ["email"; "sms"; "call"; "notify"]);
   ("research", ["research"; "academic"; "paper"; "science"]);
   ("iot", ["iot"; "sensor"; "device"; "smart"; "home"])].

(** [any(keyword in text for keyword in keywords)] *)
Definition any_in (keywords : list string) (text : string) : bool :=
  existsb (fun keyword => contains keyword text) keywords.

(** The loop over the categories: the first whose keywords occur. *)
Fixpoint first_category (table : list (string * list string)) (text : string)
  : option string :=
  match table with
  | [] => None
  | (category, keywords) :: rest =>
      if any_in keywords text then Some category
      else first_category rest text
  end.

(** The text that [_determine_category] searches. *)
Definition category_text (name description : string) (tags : list string)
  : string :=
  lower (name ++ " " ++ description ++ " " ++ join " " tags).

Definition _determine_category (name description : string)
  (tags : list string) : string :=
  let text := category_text name description tags in
  match first_category category_keywords text with
  | Some category => category
  | None => "web-apis"
  end.

(** ** Regular expressions with lazy repetition and alternatives

    The fragment that the GitHub pattern of [NPMDiscovery] uses. *)

Module Rx.

Inductive cls : Type :=
| Chr (c : ascii)
| NotChr (c : ascii)
| Either (a b : ascii).

Inductive item : Type :=
| One (c : cls)
| Plus (c : cls)
| LazyPlus (c : cls)
| End.

(** A pattern with one group, closed by a non-capturing group of
    alternatives. *)
Record pattern : Type := {
  before : list item;
  group : list item;
  after : list (list item)
}.

Definition accepts (c : cls) (a : ascii) : bool :=
  match c with
  | Chr x => Ascii.eqb a x
  | NotChr x => negb (Ascii.eqb a x)
  | Either x y => orb (Ascii.eqb a x) (Ascii.eqb a y)
  end.

(** [$]: the end of the string, or the newline that ends it. *)
Definition at_end (s : string) : bool :=
  orb (is_empty s) (String.eqb s newline).

(** [c*?] then the continuation: as few characters as possible. *)
Fixpoint lazy {R} (p : ascii -> bool) (s : string)
  (k : string -> option R) : option R :=
  match k s with
  | Some r => Some r
  | None =>
      match s with
      | String a s' => if p a then lazy p s' k else None
      | EmptyString => None
      end
  end.

Fixpoint match_items {R} (items : list item) (s : string)
  (k : string -> option R) : option R :=
  match items with
  | [] => k s
  | One c :: rest =>
      match s with
      | String a s' => if accepts c a then match_items rest s' k else None
      | EmptyString => None
      end
  | Plus c :: rest =>
      Re.greedy (accepts c) 1 s (fun s' => match_items rest s' k)
  | LazyPlus c :: rest =>
      match s with
      | String a s' =>
          if accepts c a then lazy (accepts c) s' (fun s'' => match_items rest s'' k)
          else None
      | EmptyString => None
      end
  | End :: rest => if at_end s then match_items rest s k else None
  end.

(** The alternatives, in order. *)
Fixpoint match_any {R} (alts : list (list item)) (s : string)
  (k : string -> option R) : option R :=
  match alts with
  | [] => None
  | alt :: rest =>
      match match_items alt s k with
      | Some r => Some r
      | None => match_any rest s k
      end
  end.

(** The text of the group of a match at the start of [s]. *)
Definition match_at (p : pattern) (s : string) : option string :=
  match_items (before p) s (fun s1 =>
  match_items (group p) s1 (fun s2 =>
  match_any (after p) s2 (fun _ =>
    Some (sfirstn (String.length s1 - String.length s2) s1)))).

(** [re.search(p, s).group(1)], or [None] *)
Fixpoint search (p : pattern) (s : string) : option string :=
  match match_at p s with
  | Some g => Some g
  | None =>
      match s with
      | EmptyString => None
      | String _ s' => search p s'
      end
  end.

Fixpoint lits (s : string) : list item :=
  match s with
  | EmptyString => []
  | String c r => One (Chr c) :: lits r
  end.

End Rx.

(** ** NPMDiscovery: the GitHub URL of a package *)

(** [r'github\.com[:/]([^/]+/[^/]+?)(?:\.git|/|$)'] *)
Definition github_pattern : Rx.pattern :=
  {| Rx.before := Rx.lits "github.com" ++ [Rx.One (Rx.Either ":" "/")];
     Rx.group := [Rx.Plus (Rx.NotChr "/"); Rx.One (Rx.Chr "/");
                  Rx.LazyPlus (Rx.NotChr "/")];
     Rx.after := [Rx.lits ".git"; Rx.lits "/"; [Rx.End]] |}.

(** [o.startswith(p)] *)
Definition str_startswith (p : string) (o : value) : res bool :=
  match o with
  | VStr s => Ok (startswith p s)
  | _ => Err (AttributeError (type_name o) "startswith")
  end.

(** [re.search(github_pattern, o)] *)
Definition github_search (o : value) : res (option string) :=
  match o with
  | VStr s => Ok (Rx.search github_pattern s)
  | _ => Err (TypeError ("expected string or bytes-like object, got '"
                         ++ type_name o ++ "'"))
  end.

(** The part of [_extract_github_url] after [repo_url] is known. *)
Definition clean_github_url (repo_url : value) : res string :=
  mentions_github <~ str_in "github.com" repo_url ;;
  github_match <~ (if mentions_github then github_search repo_url
                   else Ok None) ;;
  match github_match with
  | Some group1 => Ok ("https://github.com/" ++ group1)%string
  | None =>
      is_http <~ str_startswith "http" repo_url ;;
      match repo_url with
      | VStr url => Ok (if is_http then url else "")
      | _ => Ok ""
      end
  end.

Definition _extract_github_url (version_info : dict) : res string :=
  let repo := dict_get version_info "repository" (VDict []) in
  match repo with
  | VDict items => clean_github_url (dict_get items "url" (VStr ""))
  | VStr _ => clean_github_url repo
  | _ => Ok ""
  end.

(** ** Vocabulary of the properties *)

(** The four requests of a session, in the order of the source. *)
Definition session_requests : list value :=
  [init_request; tools_request; resources_request; prompts_request].

(** The computation writes exactly [reqs] when it returns, and an initial
    part of [reqs] when it raises or hangs. *)
Definition writes_all {W A} (reqs : list value) (m : M W A) : Prop :=
  forall s,
    match m s with
    | Returned _ s' => sent s' = sent s ++ reqs
    | Raised _ s' => exists n, sent s' = sent s ++ firstn n reqs
    | Hung s' => exists n, sent s' = sent s ++ firstn n reqs
    end.

(** However the computation ends, it has written an initial part of
    [reqs]. *)
Definition writes_upto {W A} (reqs : list value) (m : M W A) : Prop :=
  forall s, exists n, sent (final (m s)) = sent s ++ firstn n reqs.

(** A computation that never lets an exception out. *)
Definition no_raise {W A} (m : M W A) : Prop :=
  forall s, match m s with Raised _ _ => False | _ => True end.

(** A computation whose every returned value satisfies [Q]. *)
Definition returns {W A} (Q : A -> Prop) (m : M W A) : Prop :=
  forall s, match m s with Returned a _ => Q a | _ => True end.

(** A result dict that reports a failure: [success] false and an error
    text. *)
Definition reports_failure (d : dict) : Prop :=
  lookup "success" d = Some (VBool false)
  /\ exists msg, lookup "error" d = Some (VStr msg).


(** Every character of the string passes the test. *)
Fixpoint sall (p : ascii -> bool) (s : string) : bool :=
  match s with
  | EmptyString => true
  | String c r => andb (p c) (sall p r)
  end.

Definition is_upper_letter (a : ascii) : bool := Re.in_range "A" "Z" a.

Definition is_ident_char (a : ascii) : bool :=
  orb (Re.in_range "A" "Z" a)
      (orb (Re.in_range "0" "9" a) (Ascii.eqb a "_")).

(** A capitalised identifier-like token of at least [n + 1] characters:
    an upper-case letter followed by [n] or more upper-case letters,
    digits or underscores. *)
Definition env_token (n : nat) (x : string) : bool :=
  match x with
  | EmptyString => false
  | String a r =>
      andb (is_upper_letter a)
           (andb (sall is_ident_char r) (Nat.leb n (String.length r)))
  end.

(** A computation that ends, by a return or by an exception, from every
    session. *)
Definition ends {W A} (m : M W A) : Prop :=
  forall s, match m s with Hung _ => False | _ => True end.

(** A child none of whose reads waits for ever. *)
Definition never_stalls {W} (P : Popen W) : Prop :=
  forall w, fst (stderr_read P w) <> Stalls
            /\ fst (stdout_readline P w) <> Stalls.

(** A child that starts, stays up, takes every write and answers with
    the lines of its world, one per read; its reads never stall. *)
Module Lines.

Definition read_line (w : list string) : reply string * list string :=
  match w with
  | [] => (Gives "", [])
  | line :: rest => (Gives line, rest)
  end.

Definition process : Popen (list string) := {|
  popen := fun _ w => (Ok tt, w);
  sleep := fun _ w => w;
  poll := fun w => (None, w);
  stdin_write := fun _ w => (Ok tt, w);
  stdin_flush := fun w => (Ok tt, w);
  select_stderr := fun w => (Ok false, w);
  stderr_read := fun w => (Gives "", w);
  stdout_readline := read_line;
  terminate := fun w => (Ok tt, w);
  kill := fun w => (Ok tt, w)
|}.

End Lines.

(** More lines for the scripted child, with the value [json.loads]
    gives for each. *)
Module Served.

Definition line_two_tools : string :=
  "{" ++ Script.q "result" ++ ": {" ++ Script.q "tools" ++ ": [{"
      ++ Script.q "name" ++ ": " ++ Script.q "read_file" ++ "}, {"
      ++ Script.q "name" ++ ": " ++ Script.q "write_file" ++ "}]}}"
      ++ newline.

Definition known_lines : list (string * value) :=
  (strip line_two_tools,
   VDict [("result",
           VDict [("tools", VList [VDict [("name", VStr "read_file")];
                                   VDict [("name", VStr "write_file")]])])])
  :: Script.known_lines.

Definition loads (text : string) : res value :=
  match lookup text known_lines with
  | Some v => Ok v
  | None => Err (JSONDecodeError "Expecting value: line 1 column 1 (char 0)")
  end.

Definition connect (c : Script.child) : run Script.child dict :=
  connect_to_mcp Script.child Script.process Script.dumps loads
    Script.command (Script.start c).

Definition communicate (c : Script.child) : run Script.child dict :=
  _communicate_with_server Script.child Script.process Script.dumps loads
    (Script.start c).

(** A server with two tools that answers resources/list with the
    number 5. *)
Definition two_tools_then_number : Script.child :=
  Script.serving [Script.line_empty_object; line_two_tools;
                  Script.line_number].

End Served.

Definition is_lower_letter (a : ascii) : bool := Re.in_range "a" "z" a.

(** The string has no lower-case letter. *)
Definition no_lower (s : string) : bool :=
  sall (fun a => negb (is_lower_letter a)) s.

(** A character that is neither a slash, nor a dot, nor a newline. *)
Definition name_char (a : ascii) : bool :=
  andb (negb (Ascii.eqb a "/"))
       (andb (negb (Ascii.eqb a ".")) (negb (Ascii.eqb a (ascii_of_nat 10)))).

(** No character of the string is the given one. *)
Definition lacks (c : ascii) (s : string) : bool :=
  sall (fun a => negb (Ascii.eqb a c)) s.

(** A JSON object. *)
Definition is_object (v : value) : bool :=
  match v with
  | VDict _ => true
  | _ => false
  end.

(** The text has ASCII characters only: the texts on which the strings
    of this development, their [upper] and [lower] and the character
    classes of the patterns agree with Python's [str]. *)
Definition is_ascii_text (s : string) : bool :=
  sall (fun a => Nat.ltb (nat_of_ascii a) 128) s.

(** The [stderr] entry of a result dict is a string, when there is one. *)
Definition stderr_is_text (d : dict) : Prop :=
  match lookup "stderr" d with
  | None => True
  | Some (VStr _) => True
  | Some _ => False
  end.

(** ** What a computation writes to the child *)

Section Wire.

Variable W : Type.

Lemma writes_all_upto {A} (reqs : list value) (m : M W A) :
  writes_all reqs m -> writes_upto reqs m.
Proof.
  intros H s. specialize (H s). destruct (m s) as [a s'|e s'|s']; simpl; auto.
  exists (length reqs). now rewrite firstn_all.
Qed.

Lemma writes_nothing_final {A} (m : M W A) :
  writes_all [] m -> forall s, sent (final (m s)) = sent s.
Proof.
  intros H s. specialize (H s).
  destruct (m s) as [a s'|e s'|s']; simpl.
  - now rewrite app_nil_r in H.
  - destruct H as [n H]. now rewrite firstn_nil, app_nil_r in H.
  - destruct H as [n H]. now rewrite firstn_nil, app_nil_r in H.
Qed.

Lemma ret_writes {A} (a : A) : writes_all [] (ret (W := W) a).
Proof. intros s. simpl. now rewrite app_nil_r. Qed.

Lemma raise_writes {A} (e : exn) : writes_all [] (raise (W := W) (A := A) e).
Proof. intros s. simpl. exists 0. now rewrite app_nil_r. Qed.

Lemma lift_writes {A} (r : res A) : writes_all [] (lift (W := W) r).
Proof. destruct r; [apply ret_writes | apply raise_writes]. Qed.

Lemma io_writes {A} (op : W -> res A * W) : writes_all [] (io op).
Proof.
  intros s. unfold io. destruct (op (world s)) as [[a|e] w]; simpl.
  - now rewrite app_nil_r.
  - exists 0. now rewrite app_nil_r.
Qed.

Lemma io_wait_writes {A} (op : W -> reply A * W) : writes_all [] (io_wait op).
Proof.
  intros s. unfold io_wait. destruct (op (world s)) as [[a|e|] w]; simpl.
  - now rewrite app_nil_r.
  - exists 0. now rewrite app_nil_r.
  - exists 0. now rewrite app_nil_r.
Qed.

Lemma record_writes (req : value) : writes_all [req] (record_sent (W := W) req).
Proof. intros s. reflexivity. Qed.

Lemma firstn_app_left {A} (n : nat) (l1 l2 : list A) :
  exists k, firstn n l1 = firstn k (l1 ++ l2).
Proof.
  exists (Nat.min n (length l1)).
  rewrite firstn_app.
  replace (Nat.min n (length l1) - length l1) with 0 by lia.
  rewrite firstn_O, app_nil_r.
  destruct (Nat.le_ge_cases n (length l1)).
  - now rewrite Nat.min_l.
  - rewrite Nat.min_r by assumption.
    now rewrite firstn_all, firstn_all2.
Qed.

Lemma firstn_app_right {A} (n : nat) (l1 l2 : list A) :
  exists k, l1 ++ firstn n l2 = firstn k (l1 ++ l2).
Proof.
  exists (length l1 + n).
  rewrite firstn_app.
  replace (length l1 + n - length l1) with n by lia.
  f_equal. symmetry. apply firstn_all2. lia.
Qed.

Lemma bind_writes_all {A B} (r1 r2 : list value) (m : M W A) (k : A -> M W B) :
  writes_all r1 m -> (forall a, writes_all r2 (k a)) ->
  writes_all (r1 ++ r2) (bind m k).
Proof.
  intros Hm Hk s. unfold bind. specialize (Hm s).
  destruct (m s) as [a s1|e s1|s1].
  - specialize (Hk a s1).
    destruct (k a s1) as [b s2|e s2|s2].
    + now rewrite Hk, Hm, app_assoc.
    + destruct Hk as [n Hk]. rewrite Hk, Hm, <- app_assoc.
      destruct (firstn_app_right n r1 r2) as [j Hj]. exists j. now rewrite Hj.
    + destruct Hk as [n Hk]. rewrite Hk, Hm, <- app_assoc.
      destruct (firstn_app_right n r1 r2) as [j Hj]. exists j. now rewrite Hj.
  - destruct Hm as [n Hm]. rewrite Hm.
    destruct (firstn_app_left n r1 r2) as [j Hj]. exists j. now rewrite Hj.
  - destruct Hm as [n Hm]. rewrite Hm.
    destruct (firstn_app_left n r1 r2) as [j Hj]. exists j. now rewrite Hj.
Qed.

Lemma bind_writes_upto {A B} (r1 r2 : list value) (m : M W A) (k : A -> M W B) :
  writes_all r1 m -> (forall a, writes_upto r2 (k a)) ->
  writes_upto (r1 ++ r2) (bind m k).
Proof.
  intros Hm Hk s. unfold bind. specialize (Hm s).
  destruct (m s) as [a s1|e s1|s1].
  - destruct (Hk a s1) as [n Hn]. rewrite Hn, Hm, <- app_assoc.
    destruct (firstn_app_right n r1 r2) as [j Hj]. exists j. now rewrite Hj.
  - simpl. destruct Hm as [n Hm]. rewrite Hm.
    destruct (firstn_app_left n r1 r2) as [j Hj]. exists j. now rewrite Hj.
  - simpl. destruct Hm as [n Hm]. rewrite Hm.
    destruct (firstn_app_left n r1 r2) as [j Hj]. exists j. now rewrite Hj.
Qed.

(** A handler that writes nothing leaves what the body wrote. *)
Lemma try_writes_upto {A} (reqs : list value) (m : M W A) (h : exn -> M W A) :
  writes_upto reqs m -> (forall e, writes_all [] (h e)) ->
  writes_upto reqs (try_except m h).
Proof.
  intros Hm Hh s. unfold try_except. destruct (Hm s) as [n Hn].
  destruct (m s) as [a s1|e s1|s1]; simpl in *.
  - now exists n.
  - exists n. now rewrite (writes_nothing_final _ (Hh e) s1).
  - now exists n.
Qed.

Lemma try_writes_nothing {A} (m : M W A) (h : exn -> M W A) :
  writes_all [] m -> (forall e, writes_all [] (h e)) ->
  writes_all [] (try_except m h).
Proof.
  intros Hm Hh s. unfold try_except. specialize (Hm s).
  destruct (m s) as [a s1|e s1|s1]; auto.
  destruct Hm as [n Hm]. rewrite firstn_nil, app_nil_r in Hm.
  specialize (Hh e s1). rewrite Hm in Hh. exact Hh.
Qed.

End Wire.

Lemma try_no_raise {W A} (m : M W A) (h : exn -> M W A) :
  (forall e, no_raise (h e)) -> no_raise (try_except m h).
Proof.
  intros Hh s. unfold try_except. destruct (m s) as [a s1|e s1|s1]; auto.
  apply Hh.
Qed.

Lemma ret_no_raise {W A} (a : A) : no_raise (ret (W := W) a).
Proof. intros s. exact I. Qed.

Section ClientWire.

Variable W : Type.
Variable P : Popen W.
Variable json_dumps : value -> string.
Variable json_loads : string -> res value.

Local Open Scope session_scope.

Lemma write_request_writes (req : value) :
  writes_all [req] (write_request W P json_dumps req).
Proof.
  unfold write_request.
  change [req] with ([] ++ ([req] ++ [])).
  apply bind_writes_all; [apply io_writes | intros _].
  apply bind_writes_all; [apply record_writes | intros _; apply io_writes].
Qed.

Lemma readline_writes : writes_all [] (readline W P).
Proof. apply io_wait_writes. Qed.

Lemma peek_stderr_writes : writes_all [] (peek_stderr W P).
Proof.
  unfold peek_stderr. apply try_writes_nothing.
  - change (@nil value) with (@nil value ++ []).
    apply bind_writes_all; [apply io_writes | intros [|]].
    + apply io_wait_writes.
    + apply ret_writes.
  - intros e. apply ret_writes.
Qed.

Lemma ask_initialize_writes :
  writes_all [init_request] (ask_initialize W P json_dumps).
Proof.
  unfold ask_initialize.
  change [init_request] with ([init_request] ++ ([] ++ ([] ++ []))).
  apply bind_writes_all; [apply write_request_writes | intros _].
  apply bind_writes_all; [apply peek_stderr_writes | intros stderr_data].
  apply bind_writes_all; [apply readline_writes | intros line].
  apply ret_writes.
Qed.

Lemma negotiate_writes :
  writes_all [init_request] (negotiate W P json_dumps json_loads).
Proof.
  unfold negotiate.
  change [init_request] with ([init_request] ++ []).
  apply bind_writes_all; [apply ask_initialize_writes | intros asked].
  apply lift_writes.
Qed.

Lemma list_tools_writes :
  writes_all [tools_request] (list_tools W P json_dumps json_loads).
Proof.
  unfold list_tools.
  change [tools_request] with ([tools_request] ++ ([] ++ [])).
  apply bind_writes_all; [apply write_request_writes | intros _].
  apply bind_writes_all; [apply readline_writes | intros line].
  destruct (is_empty line); [apply ret_writes |].
  destruct (read_tools json_loads line) as [tools|[]];
    first [apply ret_writes | apply raise_writes].
Qed.

Lemma firstn_single {A} (n : nat) (x : A) :
  firstn n [x] = [] \/ firstn n [x] = [x].
Proof. destruct n as [|[|n]]; simpl; auto. Qed.

(** An exchange of the inner block never raises; it has written its
    request when it ends without an exception in flight. *)
Lemma list_extra_writes (req : value) (key : string) (s : session W) :
  match list_extra W P json_dumps json_loads req key s with
  | Returned (_, None) s' => sent s' = sent s ++ [req]
  | Returned (_, Some _) s' => sent s' = sent s \/ sent s' = sent s ++ [req]
  | Raised _ _ => False
  | Hung s' => sent s' = sent s \/ sent s' = sent s ++ [req]
  end.
Proof.
  unfold list_extra, try_except.
  set (body := bind (write_request W P json_dumps req) _).
  assert (Hbody : writes_all [req] body).
  { unfold body.
    change [req] with ([req] ++ ([] ++ [])).
    apply bind_writes_all; [apply write_request_writes | intros _].
    apply bind_writes_all; [apply readline_writes | intros line].
    apply ret_writes. }
  specialize (Hbody s).
  destruct (body s) as [[v [e|]] s1|e s1|s1]; simpl; auto.
  - destruct Hbody as [n Hn].
    destruct (firstn_single n req) as [E|E]; rewrite E in Hn;
      [left; now rewrite app_nil_r in Hn | now right].
  - destruct Hbody as [n Hn].
    destruct (firstn_single n req) as [E|E]; rewrite E in Hn;
      [left; now rewrite app_nil_r in Hn | now right].
Qed.

Lemma list_additional_writes :
  writes_upto [resources_request; prompts_request]
    (list_additional W P json_dumps json_loads).
Proof.
  intros s. unfold list_additional, bind.
  pose proof (list_extra_writes resources_request "resources" s) as Hr.
  destruct (list_extra W P json_dumps json_loads resources_request "resources" s)
    as [[v [e|]] s1|e s1|s1]; simpl in *.
  - destruct Hr as [Hr|Hr]; [exists 0 | exists 1]; rewrite Hr; simpl;
      now rewrite ?app_nil_r.
  - pose proof (list_extra_writes prompts_request "prompts" s1) as Hp.
    destruct (list_extra W P json_dumps json_loads prompts_request "prompts" s1)
      as [[v' [e'|]] s2|e' s2|s2]; simpl in *.
    + destruct Hp as [Hp|Hp]; [exists 1 | exists 2]; rewrite Hp, Hr;
        now rewrite <- ?app_assoc.
    + exists 2. rewrite Hp, Hr. now rewrite <- app_assoc.
    + contradiction.
    + destruct Hp as [Hp|Hp]; [exists 1 | exists 2]; rewrite Hp, Hr;
        now rewrite <- ?app_assoc.
  - contradiction.
  - destruct Hr as [Hr|Hr]; [exists 0 | exists 1]; rewrite Hr; simpl;
      now rewrite ?app_nil_r.
Qed.


Lemma writes_nothing_upto {A} (reqs : list value) (m : M W A) :
  writes_all [] m -> writes_upto reqs m.
Proof.
  intros H s. exists 0. simpl. rewrite app_nil_r.
  now apply writes_nothing_final.
Qed.

Lemma bind_upto_nothing {A B} (reqs : list value) (m : M W A) (k : A -> M W B) :
  writes_upto reqs m -> (forall a, writes_all [] (k a)) ->
  writes_upto reqs (bind m k).
Proof.
  intros Hm Hk s. unfold bind. destruct (Hm s) as [n Hn].
  destruct (m s) as [a s1|e s1|s1]; simpl in *; exists n; auto.
  now rewrite (writes_nothing_final W _ (Hk a) s1).
Qed.

Lemma collect_lists_writes (h : handshake) :
  writes_upto [tools_request; resources_request; prompts_request]
    (collect_lists W P json_dumps json_loads h).
Proof.
  unfold collect_lists.
  change [tools_request; resources_request; prompts_request]
    with ([tools_request] ++ [resources_request; prompts_request]).
  apply bind_writes_upto; [apply list_tools_writes | intros tools].
  apply bind_upto_nothing; [apply list_additional_writes | intros extra].
  apply lift_writes.
Qed.

Lemma communication_failed_writes (e : exn) :
  writes_all [] (communication_failed W P e).
Proof.
  unfold communication_failed.
  change (@nil value) with (@nil value ++ []).
  apply bind_writes_all; [| intros text; apply ret_writes].
  apply try_writes_nothing; [apply io_wait_writes | intros _; apply ret_writes].
Qed.

Lemma communication_failed_no_raise (e : exn) :
  no_raise (communication_failed W P e).
Proof.
  intros s. unfold communication_failed, bind, try_except, io_wait.
  destruct (stderr_read P (world s)) as [[text|e'|] w]; exact I.
Qed.

Lemma communicate_writes :
  writes_upto session_requests
    (_communicate_with_server W P json_dumps json_loads).
Proof.
  unfold _communicate_with_server.
  apply try_writes_upto; [| apply communication_failed_writes].
  change session_requests
    with ([init_request] ++ [tools_request; resources_request; prompts_request]).
  apply bind_writes_upto; [apply negotiate_writes | intros [early|h]].
  - apply writes_nothing_upto, ret_writes.
  - apply collect_lists_writes.
Qed.

Lemma communicate_no_raise :
  no_raise (_communicate_with_server W P json_dumps json_loads).
Proof. apply try_no_raise, communication_failed_no_raise. Qed.

Lemma start_writes (command : string) :
  writes_all [] (_start_mcp_server W P command).
Proof.
  unfold _start_mcp_server.
  apply try_writes_nothing; [| intros _; apply ret_writes].
  change (@nil value) with (@nil value ++ ([] ++ ([] ++ []))).
  apply bind_writes_all; [apply io_writes | intros _].
  apply bind_writes_all; [apply io_writes | intros _].
  apply bind_writes_all; [apply io_writes | intros [code|]]; apply ret_writes.
Qed.

Lemma cleanup_writes : writes_all [] (_cleanup_process W P).
Proof.
  unfold _cleanup_process.
  apply try_writes_nothing; [| intros _; apply ret_writes].
  change (@nil value) with (@nil value ++ []).
  apply bind_writes_all; [apply io_writes | intros [code|]];
    [apply ret_writes |].
  change (@nil value) with (@nil value ++ ([] ++ ([] ++ []))).
  apply bind_writes_all; [apply io_writes | intros _].
  apply bind_writes_all; [apply io_writes | intros _].
  apply bind_writes_all; [apply io_writes | intros [code|]];
    [apply ret_writes | apply io_writes].
Qed.

Lemma connect_writes (command : string) :
  writes_upto session_requests
    (connect_to_mcp W P json_dumps json_loads command).
Proof.
  unfold connect_to_mcp.
  apply try_writes_upto; [| intros e; apply ret_writes].
  change session_requests with ([] ++ session_requests).
  apply bind_writes_upto; [apply start_writes | intros process].
  destruct (negb process).
  - apply writes_nothing_upto, ret_writes.
  - apply bind_upto_nothing; [apply communicate_writes | intros result].
    change (@nil value) with (@nil value ++ []).
    apply bind_writes_all; [apply cleanup_writes | intros _; apply ret_writes].
Qed.

Lemma connect_no_raise (command : string) :
  no_raise (connect_to_mcp W P json_dumps json_loads command).
Proof. apply try_no_raise. intros e. apply ret_no_raise. Qed.

End ClientWire.

(** ** What the client returns *)

Lemma returns_ret {W A} (Q : A -> Prop) (a : A) :
  Q a -> returns Q (ret (W := W) a).
Proof. intros H s. exact H. Qed.

Lemma returns_bind {W A B} (Q : B -> Prop) (m : M W A) (k : A -> M W B) :
  (forall a, returns Q (k a)) -> returns Q (bind m k).
Proof.
  intros Hk s. unfold bind. destruct (m s) as [a s1|e s1|s1]; auto.
  apply Hk.
Qed.

Lemma returns_try {W A} (Q : A -> Prop) (m : M W A) (h : exn -> M W A) :
  returns Q m -> (forall e, returns Q (h e)) -> returns Q (try_except m h).
Proof.
  intros Hm Hh s. unfold try_except. specialize (Hm s).
  destruct (m s) as [a s1|e s1|s1]; auto.
  apply Hh.
Qed.

Lemma returns_lift {W A} (Q : A -> Prop) (r : res A) :
  (forall a, r = Ok a -> Q a) -> returns Q (lift (W := W) r).
Proof. intros H s. destruct r as [a|e]; simpl; auto. Qed.


Lemma reports_failure_intro (msg : string) (rest : dict) :
  reports_failure (("success", VBool false) :: ("error", VStr msg) :: rest).
Proof. split; [reflexivity | now exists msg]. Qed.

Section ClientResults.

Variable W : Type.
Variable P : Popen W.
Variable json_dumps : value -> string.
Variable json_loads : string -> res value.

(** An early return of the initialize exchange reports a failure. *)
Lemma read_initialize_early (stderr_data line : string) (d : dict) :
  read_initialize json_loads stderr_data line = Ok (inl d) ->
  lookup "success" d = Some (VBool false)
  /\ (lookup "error" d = Some (VStr "No response from server")
      \/ lookup "error" d = Some (VStr "Invalid JSON response")).
Proof.
  unfold read_initialize, rbind.
  destruct (is_empty line).
  - intros H. injection H as <-. split; [reflexivity | now left].
  - destruct (json_loads (strip line)) as [v|e].
    + destruct (result_of v "protocolVersion" (VStr "unknown version")) as [pv|e].
      * destruct (get v "result" (VDict [])) as [r|e]; [| discriminate].
        destruct (get r "protocolVersion" VNone); [| discriminate].
        destruct (get r "serverInfo" (VDict [])); [| discriminate].
        destruct (get r "capabilities" (VDict [])) as [caps|]; [| discriminate].
        destruct (keys caps); discriminate.
      * destruct e; try discriminate.
        intros H. injection H as <-. split; [reflexivity | now right].
    + destruct e; try discriminate.
      intros H. injection H as <-. split; [reflexivity | now right].
Qed.





(** C9: within one connection attempt the requests written to the child
    are an initial part of initialize, tools/list, resources/list,
    prompts/list, so their sequence ids are strictly increasing in the
    order of sending and pairwise distinct, however the attempt ends. *)
Theorem C9_request_ids_increase (command : string) (w : W) :
  let attempt :=
    connect_to_mcp W P json_dumps json_loads command
      {| world := w; sent := [] |} in
  let ids := map request_id (sent (final attempt)) in
  StronglySorted Z.lt ids /\ NoDup ids
  /\ exists n, ids = firstn n [1; 2; 3; 4]%Z.
Proof.
  intros attempt ids. unfold ids, attempt.
  destruct (connect_writes W P json_dumps json_loads command
              {| world := w; sent := [] |}) as [n Hn].
  simpl in Hn. rewrite Hn.
  split; [| split; [| exists n]].
  - destruct n as [|[|[|[|n]]]]; simpl; rewrite ?firstn_nil; simpl;
      repeat (constructor; try lia).
  - destruct n as [|[|[|[|n]]]]; simpl; rewrite ?firstn_nil; simpl;
      repeat (constructor; [simpl; intuition discriminate |]); constructor.
  - destruct n as [|[|[|[|n]]]]; simpl; rewrite ?firstn_nil; reflexivity.
Qed.

End ClientResults.



(** C8: a child that stays up and never writes a line makes the first
    [readline] of the session wait for ever: the attempt does not end. *)
Theorem C8_silent_server_hangs :
  exists s, Script.connect Script.command Script.silent = Hung s
            /\ sent s = [init_request].
Proof. eexists. split; [vm_compute; reflexivity | reflexivity]. Qed.

(** C10, as stated, fails: the line [5] parses as a JSON value, and the
    attempt returns [success] false. *)
Lemma C10_json_number_fails :
  Script.loads (strip Script.line_number) = Ok (VInt 5)
  /\ exists s,
       Script.connect Script.command (Script.serving [Script.line_number])
       = Returned [("success", VBool false);
                   ("error", VStr "'int' object has no attribute 'get'");
                   ("stderr", VStr "")] s.
Proof. split; [reflexivity |]. eexists. vm_compute. reflexivity. Qed.



Section ClientClaims.

Variable W : Type.
Variable P : Popen W.
Variable json_dumps : value -> string.
Variable json_loads : string -> res value.

Local Abbreviation negotiate' := (negotiate W P json_dumps json_loads).
Local Abbreviation list_tools' := (list_tools W P json_dumps json_loads).
Local Abbreviation list_extra' := (list_extra W P json_dumps json_loads).
Local Abbreviation communicate' := (_communicate_with_server W P json_dumps json_loads).
Local Abbreviation collect_lists' := (collect_lists W P json_dumps json_loads).





(** The outer handler: it reads stderr without a deadline, and returns
    the failure dict when that read returns or raises. *)
Lemma failed_unfold (e : exn) (s : session W) :
  communication_failed W P e s
  = match stderr_read P (world s) with
    | (Gives text, w) =>
        Returned [("success", VBool false); ("error", VStr (str_exn e));
                  ("stderr", VStr text)]
                 {| world := w; sent := sent s |}
    | (Throws _, w) =>
        Returned [("success", VBool false); ("error", VStr (str_exn e));
                  ("stderr", VStr "")]
                 {| world := w; sent := sent s |}
    | (Stalls, w) => Hung {| world := w; sent := sent s |}
    end.
Proof.
  unfold communication_failed, bind, try_except, io_wait, ret.
  destruct (stderr_read P (world s)) as [[text|e'|] w]; reflexivity.
Qed.

(** C10, as the code has it, for a line read after initialize that is
    not empty.
    When the line parses as a JSON object with no [result] member (a
    JSON-RPC error response is one), the exchange counts as a handshake
    with protocol version [None] and empty server info and capabilities;
    the list calls follow, and when they and the summary raise nothing
    the result has [success] true with those defaults.
    When the line parses as a JSON value that is not an object, the
    look-up of [result] raises [AttributeError]; the outer handler then
    reads stderr without a deadline: the result has [success] false with
    the text of the exception when that read returns or raises, and the
    session hangs when that read blocks. *)
Theorem C10_object_without_result (s s1 : session W)
  (stderr_text line : string) :
  ask_initialize W P json_dumps s = Returned (stderr_text, line) s1 ->
  is_empty line = false ->
  (forall items,
     json_loads (strip line) = Ok (VDict items) ->
     lookup "result" items = None ->
     let h := {| protocol_version := VNone; server_info := VDict [];
                 capabilities := VDict []; stderr_data := stderr_text |} in
     negotiate' s = Returned (inr h) s1
     /\ forall d s2,
          collect_lists' h s1 = Returned d s2 ->
          communicate' s = Returned d s2
          /\ lookup "success" d = Some (VBool true)
          /\ lookup "protocol_version" d = Some VNone
          /\ lookup "server_info" d = Some (VDict [])
          /\ lookup "capabilities" d = Some (VDict []))
  /\ (forall v,
        json_loads (strip line) = Ok v ->
        is_object v = false ->
        let message :=
          ("'" ++ type_name v ++ "' object has no attribute 'get'")%string in
        negotiate' s = Raised (AttributeError (type_name v) "get") s1
        /\ communicate' s
           = match stderr_read P (world s1) with
             | (Gives text, w) =>
                 Returned [("success", VBool false);
                           ("error", VStr message);
                           ("stderr", VStr text)]
                          {| world := w; sent := sent s1 |}
             | (Throws _, w) =>
                 Returned [("success", VBool false);
                           ("error", VStr message);
                           ("stderr", VStr "")]
                          {| world := w; sent := sent s1 |}
             | (Stalls, w) => Hung {| world := w; sent := sent s1 |}
             end).
Proof.
  intros Hask Hline. split.
  - intros items Hload Hres h.
    assert (Hneg : negotiate' s = Returned (inr h) s1).
    { unfold negotiate, bind. rewrite Hask. simpl.
      unfold read_initialize, result_of, rbind. rewrite Hline, Hload.
      unfold get, dict_get. repeat (rewrite Hres; simpl). reflexivity. }
    split; [exact Hneg |].
    intros d s2 Hcol.
    split.
    + unfold _communicate_with_server, try_except, bind.
      now rewrite Hneg, Hcol.
    + revert Hcol. unfold collect_lists, bind.
      destruct (list_tools' s1) as [tools sa|e sa|sa]; try discriminate.
      destruct (list_additional W P json_dumps json_loads sa)
        as [extra sb|e sb|sb]; try discriminate.
      unfold summarise, rbind, lift, ret, raise.
      destruct (len tools); [| discriminate].
      destruct (len (fst extra)); [| discriminate].
      destruct (len (snd extra)); [| discriminate].
      intros H. injection H as <- _. repeat split.
  - intros v Hload Hobj message.
    assert (Hneg : negotiate' s
                   = Raised (AttributeError (type_name v) "get") s1).
    { unfold negotiate, bind. rewrite Hask. simpl.
      unfold read_initialize, result_of, rbind. rewrite Hline, Hload.
      destruct v; try discriminate Hobj; reflexivity. }
    split; [exact Hneg |].
    unfold _communicate_with_server, try_except, bind. rewrite Hneg.
    apply failed_unfold.
Qed.

End ClientClaims.




(** A JSON-RPC error response to initialize is taken as a handshake; the
    number 5 is not: the session is reported as failed when the read of
    stderr returns, and hangs when the child keeps stderr open and
    silent. *)
Lemma C10_object_without_result_witness :
  (exists d s,
     Script.communicate (Script.serving [Script.line_error_response])
     = Returned d s
     /\ lookup "success" d = Some (VBool true)
     /\ lookup "protocol_version" d = Some VNone
     /\ lookup "server_info" d = Some (VDict [])
     /\ lookup "capabilities" d = Some (VDict []))
  /\ Script.communicate (Script.serving [Script.line_number])
     = Returned [("success", VBool false);
                 ("error", VStr "'int' object has no attribute 'get'");
                 ("stderr", VStr "")]
                {| world := Script.serving []; sent := [init_request] |}
  /\ exists s,
       Script.communicate
         {| Script.launch := Ok tt; Script.exit_code := None;
            Script.writes := []; Script.stderr_ready := false;
            Script.stderr_text := Stalls;
            Script.lines := [Gives Script.line_number] |}
       = Hung s.
Proof.
  split; [| split].
  - destruct (C10_object_without_result Script.child Script.process
                Script.dumps Script.loads
                (Script.start (Script.serving [Script.line_error_response]))
                {| world := Script.serving []; sent := [init_request] |}
                "" Script.line_error_response eq_refl eq_refl) as [H _].
    destruct (H [("jsonrpc", VStr "2.0"); ("id", VInt 1);
                 ("error", VDict [("code", VInt (-32601));
                                  ("message", VStr "Method not found")])]
                eq_refl eq_refl) as [_ H'].
    do 2 eexists. apply H'. vm_compute. reflexivity.
  - destruct (C10_object_without_result Script.child Script.process
                Script.dumps Script.loads
                (Script.start (Script.serving [Script.line_number]))
                {| world := Script.serving []; sent := [init_request] |}
                "" Script.line_number eq_refl eq_refl) as [_ H].
    destruct (H (VInt 5) eq_refl eq_refl) as [_ H'].
    exact H'.
  - destruct (C10_object_without_result Script.child Script.process
                Script.dumps Script.loads
                (Script.start
                   {| Script.launch := Ok tt; Script.exit_code := None;
                      Script.writes := []; Script.stderr_ready := false;
                      Script.stderr_text := Stalls;
                      Script.lines := [Gives Script.line_number] |})
                {| world :=
                     {| Script.launch := Ok tt; Script.exit_code := None;
                        Script.writes := []; Script.stderr_ready := false;
                        Script.stderr_text := Stalls;
                        Script.lines := [] |};
                   sent := [init_request] |}
                "" Script.line_number eq_refl eq_refl) as [_ H].
    destruct (H (VInt 5) eq_refl eq_refl) as [_ H'].
    eexists. exact H'.
Defined.

(** ** Facts about the regular expressions *)

Lemma length_append (a b : string) :
  String.length (a ++ b) = String.length a + String.length b.
Proof. induction a as [|c a IH]; simpl; [reflexivity | now rewrite IH]. Qed.

Lemma sfirstn_append (a b : string) : sfirstn (String.length a) (a ++ b) = a.
Proof. induction a as [|c a IH]; simpl; [now destruct b | now rewrite IH]. Qed.

(** A successful [c{n,}] has consumed at least [n] characters of the
    class and handed the rest to its continuation. *)
Lemma greedy_sound {R} (p : ascii -> bool) (k : string -> option R) (r : R) :
  forall (s : string) (n : nat),
    Re.greedy p n s k = Some r ->
    exists taken rest,
      s = (taken ++ rest)%string /\ n <= String.length taken
      /\ sall p taken = true /\ k rest = Some r.
Proof.
  induction s as [|a s IH]; intros n H; simpl in H.
  - destruct n; [| discriminate].
    exists EmptyString, EmptyString. repeat split; auto.
  - destruct (p a) eqn:Hp.
    + destruct (Re.greedy p (Nat.pred n) s k) as [r'|] eqn:Hg.
      * injection H as ->. apply IH in Hg.
        destruct Hg as (taken & rest & -> & Hlen & Hall & Hk).
        exists (String a taken), rest. simpl. rewrite Hp, Hall.
        repeat split; auto. lia.
      * destruct n; [| discriminate].
        exists EmptyString, (String a s). repeat split; auto.
    + destruct n; [| discriminate].
      exists EmptyString, (String a s). repeat split; auto.
Qed.

Lemma name_match_unfold (n : nat) (s : string) :
  Re.match_at false
    {| Re.before := []; Re.group := name_group n; Re.after := [] |} s
  = match s with
    | EmptyString => None
    | String a s' =>
        if is_upper_letter a then
          Re.greedy is_ident_char n s'
            (fun s2 => Some (sfirstn (String.length s - String.length s2) s, s2))
        else None
    end.
Proof. destruct s; reflexivity. Qed.

(** A match of [[A-Z][A-Z0-9_]{n,}] alone is a token. *)
Lemma name_match_token (n : nat) (s g rest : string) :
  Re.match_at false
    {| Re.before := []; Re.group := name_group n; Re.after := [] |} s
  = Some (g, rest) ->
  env_token n g = true.
Proof.
  rewrite name_match_unfold.
  destruct s as [|a s]; [discriminate |].
  destruct (is_upper_letter a) eqn:Hup; [| discriminate].
  intros H. apply greedy_sound in H.
  destruct H as (taken & rest' & -> & Hlen & Hall & Hk).
  assert (Hg : g = sfirstn (String.length (String a (taken ++ rest'))
                            - String.length rest')
                           (String a (taken ++ rest')))
    by (cbv beta in Hk; congruence).
  rewrite Hg.
  replace (String.length (String a (taken ++ rest')) - String.length rest')
    with (S (String.length taken))
    by (cbn [String.length]; rewrite length_append; lia).
  cbn [sfirstn]. rewrite sfirstn_append.
  unfold env_token. rewrite Hup, Hall. simpl.
  now apply Nat.leb_le.
Qed.

(** Every element that [findall] returns is the group of a match. *)
Lemma findall_from_match (ic : bool) (p : Re.pattern) (g : string) :
  forall (fuel : nat) (s : string),
    In g (Re.findall_from fuel ic p s) ->
    exists s' rest, Re.match_at ic p s' = Some (g, rest).
Proof.
  induction fuel as [|fuel IH]; intros s H; simpl in H; [contradiction |].
  destruct (Re.match_at ic p s) as [[g' rest]|] eqn:Hm.
  - destruct (Nat.ltb (String.length rest) (String.length s)).
    + destruct H as [<-|H]; [now exists s, rest | eauto].
    + destruct H as [<-|H]; [now exists s, rest |].
      destruct s; [contradiction | eauto].
  - destruct s; [contradiction | eauto].
Qed.

Lemma env_mention_token (text x : string) :
  In x (Re.findall false env_mention text) -> env_token 4 x = true.
Proof.
  intros H. apply findall_from_match in H. destruct H as (s' & rest & H).
  now apply name_match_token in H.
Qed.

(** ** Facts about lists *)

Lemma firstn_subset {A} (n : nat) (l : list A) (x : A) :
  In x (firstn n l) -> In x l.
Proof.
  revert l. induction n as [|n IH]; intros [|a l] H; simpl in *;
    try contradiction.
  destruct H as [H|H]; auto.
Qed.

Lemma firstn_nodup {A} (n : nat) (l : list A) :
  NoDup l -> NoDup (firstn n l).
Proof.
  revert l. induction n as [|n IH]; intros [|a l] H; simpl;
    try constructor.
  - inversion H; subst. intros Hin. now apply firstn_subset in Hin.
  - inversion H; subst. now apply IH.
Qed.

Lemma firstn_all_or_full {A} (n : nat) (l : list A) (x : A) :
  In x l -> In x (firstn n l) \/ length (firstn n l) = n.
Proof.
  intros H. destruct (Nat.le_gt_cases (length l) n) as [Hle|Hgt].
  - left. now rewrite firstn_all2.
  - right. apply firstn_length_le. lia.
Qed.

Lemma nonempty_exists {A} (l : list A) :
  nonempty l = true <-> exists x, In x l.
Proof.
  destruct l as [|a l]; simpl; split; try discriminate; auto.
  - intros [x []].
  - intros _. exists a. now left.
Qed.

Lemma singleton_set (l : list string) (x : string) :
  NoDup l -> (forall y, In y l <-> y = x) -> l = [x].
Proof.
  intros Hnd Hin. destruct l as [|a l].
  - exfalso. apply (proj2 (Hin x) eq_refl).
  - assert (a = x) as -> by (apply Hin; now left).
    destruct l as [|b l]; [reflexivity |].
    assert (b = x) as -> by (apply Hin; right; now left).
    inversion Hnd; subst. exfalso. apply H1. now left.
Qed.

Lemma dedup_in (l : list string) (x : string) :
  In x (Script.dedup l) <-> In x l.
Proof.
  induction l as [|a l IH]; simpl; [tauto |].
  destruct (existsb (String.eqb a) l) eqn:He.
  - rewrite IH. split; [auto |]. intros [<-|H]; [| exact H].
    apply existsb_exists in He. destruct He as (y & Hy & Heq).
    apply String.eqb_eq in Heq. now subst.
  - simpl. rewrite IH. tauto.
Qed.

Lemma dedup_nodup (l : list string) : NoDup (Script.dedup l).
Proof.
  induction l as [|a l IH]; simpl; [constructor |].
  destruct (existsb (String.eqb a) l) eqn:He; [exact IH |].
  constructor; [| exact IH].
  rewrite dedup_in. intros Hin.
  assert (existsb (String.eqb a) l = true) as Ht.
  { apply existsb_exists. exists a. split; [exact Hin | apply String.eqb_refl]. }
  congruence.
Qed.

(** ** What the detector returns *)

Section DetectorClaims.

(** An f-string renders a [str] as itself. *)
Variable format_value : value -> string.
Hypothesis format_str : forall s, format_value (VStr s) = s.

(** [list(set(l))] has the elements of [l], each once. *)
Variable list_of_set : list string -> list string.
Hypothesis list_of_set_nodup : forall l, NoDup (list_of_set l).
Hypothesis list_of_set_in : forall l x, In x (list_of_set l) <-> In x l.

Local Abbreviation extract' :=
  (extract_auth_from_mcp_result format_value list_of_set).
Local Abbreviation tier1' := (tier1 format_value).
Local Abbreviation combined' := (combined_errors format_value).

Lemma combined_not_empty (d : dict) : is_empty (combined' d) = false.
Proof.
  unfold combined_errors, upper.
  destruct (format_value (dict_get d "error" (VStr ""))); reflexivity.
Qed.

(** The combined text of a result whose error and stderr are strings. *)
Lemma combined_errors_text (d : dict) (error stderr : string) :
  dict_get d "error" (VStr "") = VStr error ->
  dict_get d "stderr" (VStr "") = VStr stderr ->
  combined' d = upper (error ++ " " ++ stderr).
Proof.
  intros He Hs. unfold combined_errors. now rewrite He, Hs, !format_str.
Qed.

(** For a failed connection the first tier looks at the combined text. *)
Lemma tier1_failed (d : dict) :
  truthy (dict_get d "success" (VBool false)) = false ->
  tier1' d = detect_in_errors (combined' d).
Proof.
  intros H. unfold tier1. now rewrite H, combined_not_empty.
Qed.

Lemma detect_in_errors_spec (text x : string) :
  In x (detect_in_errors text) <->
  exists pattern found,
    In pattern auth_error_patterns
    /\ In found (Re.findall true pattern text)
    /\ mentions error_keywords found = true
    /\ x = upper found.
Proof.
  unfold detect_in_errors. rewrite in_flat_map. split.
  - intros (pattern & Hp & Hx). apply in_map_iff in Hx.
    destruct Hx as (found & <- & Hf). apply filter_In in Hf.
    destruct Hf as [Hf Hk]. now exists pattern, found.
  - intros (pattern & found & Hp & Hf & Hk & ->).
    exists pattern. split; [exact Hp |].
    apply in_map_iff. exists found. split; [reflexivity |].
    apply filter_In. now split.
Qed.

(** A successful connection whose server info can be inspected is
    classified as needing no authentication. *)
Lemma extract_connected (d : dict) :
  truthy (dict_get d "success" (VBool false)) = true ->
  inspect_server_info d = Ok tt ->
  extract' d = Ok (false, []).
Proof.
  intros Hs Hi. unfold extract_auth_from_mcp_result.
  rewrite Hs, Hi. reflexivity.
Qed.

(** C5, as the code has it: for a failed connection, the first tier
    scans the text made of the [error] entry, a space and the [stderr]
    entry, upper-cased, with [re.findall] for each of the eight error
    patterns. When one of the names so found contains one of the
    keywords key, token, secret, auth, api, url, client, the detector
    returns [required] true with the set of all such names, upper-cased
    and without duplicates, and never looks at the lower tiers. *)
Theorem C5_error_pattern_is_definitive (d : dict) (pattern : Re.pattern)
  (found : string) :
  let text :=
    upper (format_value (dict_get d "error" (VStr "")) ++ " "
           ++ format_value (dict_get d "stderr" (VStr ""))) in
  truthy (dict_get d "success" (VBool false)) = false ->
  In pattern auth_error_patterns ->
  In found (Re.findall true pattern text) ->
  mentions error_keywords found = true ->
  exists vars,
    extract' d = Ok (true, vars)
    /\ NoDup vars
    /\ In (upper found) vars
    /\ forall x, In x vars <->
         exists pattern' found',
           In pattern' auth_error_patterns
           /\ In found' (Re.findall true pattern' text)
           /\ mentions error_keywords found' = true
           /\ x = upper found'.
Proof.
  intros text Hfail Hp Hf Hk.
  change text with (combined' d) in *.
  exists (list_of_set (tier1' d)).
  assert (Hin : In (upper found) (tier1' d)).
  { rewrite tier1_failed by exact Hfail.
    apply detect_in_errors_spec. now exists pattern, found. }
  split; [| split; [| split]].
  - unfold extract_auth_from_mcp_result. rewrite Hfail.
    destruct (tier1' d) as [|v vs]; [contradiction | reflexivity].
  - apply list_of_set_nodup.
  - now apply list_of_set_in.
  - intros x. rewrite list_of_set_in, tier1_failed by exact Hfail.
    apply detect_in_errors_spec.
Qed.

(** C6, as the code has it: when the connection failed and the first
    tier found nothing, the detector scans the stderr text for
    capitalised identifier-like tokens of at least five characters and
    accepts a token if and only if it contains key, token, secret, auth
    or api (url and client are not on this list); it returns at most
    five distinct accepted tokens, all of them when there are at most
    five, and [required] is true exactly when some token is accepted. *)
Theorem C6_stderr_scan (d : dict) (text : string) :
  truthy (dict_get d "success" (VBool false)) = false ->
  tier1' d = [] ->
  dict_get d "stderr" (VStr "") = VStr text ->
  exists vars,
    extract' d = Ok (nonempty vars, vars)
    /\ length vars <= 5
    /\ NoDup vars
    /\ (forall x, In x vars ->
          In x (Re.findall false env_mention text)
          /\ env_token 4 x = true
          /\ mentions stderr_keywords x = true)
    /\ (forall x, In x (Re.findall false env_mention text) ->
          mentions stderr_keywords x = true ->
          In x vars \/ length vars = 5)
    /\ (nonempty vars = true <->
        exists x, In x (Re.findall false env_mention text)
                  /\ mentions stderr_keywords x = true).
Proof.
  intros Hfail Hnone Hstderr.
  set (accepted := filter (mentions stderr_keywords)
                     (Re.findall false env_mention text)).
  exists (firstn 5 (list_of_set accepted)).
  assert (Htier3 : tier3 d = Ok accepted).
  { unfold tier3. rewrite Hstderr. destruct text; reflexivity. }
  split; [| split; [| split; [| split; [| split]]]].
  - unfold extract_auth_from_mcp_result.
    rewrite Hfail, Hnone, Htier3. reflexivity.
  - apply firstn_le_length.
  - apply firstn_nodup, list_of_set_nodup.
  - intros x Hx. apply firstn_subset, list_of_set_in, filter_In in Hx.
    destruct Hx as [Hx Hk]. repeat split; auto.
    now apply env_mention_token in Hx.
  - intros x Hx Hk. apply firstn_all_or_full.
    apply list_of_set_in, filter_In. now split.
  - rewrite nonempty_exists. split.
    + intros [x Hx]. apply firstn_subset, list_of_set_in, filter_In in Hx.
      now exists x.
    + intros (x & Hx & Hk).
      assert (Hin : In x (list_of_set accepted))
        by (apply list_of_set_in, filter_In; now split).
      destruct (list_of_set accepted) as [|v vs]; [contradiction |].
      exists v. now left.
Qed.

End DetectorClaims.

(** C2: a server that answers initialize with a server info whose [name]
    is a number is connected to with [success] true, and on that result
    the detector raises instead of returning [(False, [])]. *)
Theorem C2_success_result_raises :
  exists d s,
    Script.connect Script.command
      (Script.serving [Script.line_bad_server_info]) = Returned d s
    /\ lookup "success" d = Some (VBool true)
    /\ lookup "server_info" d = Some (VDict [("name", VInt 5)])
    /\ forall format_value list_of_set,
         extract_auth_from_mcp_result format_value list_of_set d
         = Err (AttributeError "int" "lower").
Proof.
  do 2 eexists. split; [vm_compute; reflexivity |].
  repeat split.
Qed.

(** C6, as stated, fails: DATABASE_URL is a capitalised token of twelve
    characters that contains url, a keyword of the first tier; the scan
    of stderr finds it and does not accept it. *)
Lemma C6_url_token_not_accepted :
  Re.findall false env_mention "DATABASE_URL" = ["DATABASE_URL"]
  /\ env_token 4 "DATABASE_URL" = true
  /\ mentions error_keywords "DATABASE_URL" = true
  /\ Script.extract [("success", VBool false);
                     ("error", VStr "No response from server");
                     ("stderr", VStr "DATABASE_URL")]
     = Ok (false, []).
Proof. repeat split; vm_compute; reflexivity. Qed.

(** C5, as stated, fails: the text matches [please set (NAME)] at its
    twelfth character with the name API_KEY, which contains two of the
    keywords; [re.findall] starts at the first character, finds the name
    PLEASE there, goes on after that match and never tries the twelfth
    character. The detector names no variable. *)
Lemma C5_overlapped_match_is_skipped :
  let error := "please set please set API_KEY" in
  let d := [("success", VBool false); ("error", VStr error);
            ("stderr", VStr "")] in
  let please_set := nth 2 auth_error_patterns env_mention in
  upper (error ++ " " ++ "") = ("PLEASE SET " ++ "PLEASE SET API_KEY ")%string
  /\ Re.match_at true please_set "PLEASE SET API_KEY " = Some ("API_KEY", " ")
  /\ mentions error_keywords "API_KEY" = true
  /\ Re.findall true please_set (upper (error ++ " " ++ "")) = ["PLEASE"]
  /\ Script.extract d = Ok (false, []).
Proof. repeat split; vm_compute; reflexivity. Qed.

(** The missing STRIPE_SECRET_KEY of the specification, in the error
    text; and a name that only the stderr text mentions. *)
Lemma C5_error_pattern_is_definitive_witness :
  Script.extract
    [("success", VBool false);
     ("error",
      VStr "Missing required environment variable: STRIPE_SECRET_KEY")]
  = Ok (true, ["STRIPE_SECRET_KEY"])
  /\ Script.extract
       [("success", VBool false);
        ("error", VStr "No response from server");
        ("stderr", VStr "Error: DATABASE_URL is not set")]
     = Ok (true, ["DATABASE_URL"]).
Proof.
  split.
  - destruct (C5_error_pattern_is_definitive Script.format_value Script.dedup
                dedup_nodup dedup_in
                [("success", VBool false);
                 ("error",
                  VStr "Missing required environment variable: STRIPE_SECRET_KEY")]
                (nth 0 auth_error_patterns env_mention)
                "STRIPE_SECRET_KEY")
      as (vars & Hx & Hnd & Hin & Hall).
    + reflexivity.
    + left. reflexivity.
    + vm_compute. left. reflexivity.
    + reflexivity.
    + unfold Script.extract. rewrite Hx. f_equal. f_equal.
      apply singleton_set; [exact Hnd |].
      intros y. rewrite Hall. split.
      * intros (p & f & Hp & Hf & Hk & ->).
        vm_compute in Hp.
        repeat (destruct Hp as [<-|Hp];
                [vm_compute in Hf;
                 repeat (destruct Hf as [<-|Hf];
                         [first [discriminate Hk | reflexivity] |]);
                 contradiction |]).
        contradiction.
      * intros ->. exists (nth 0 auth_error_patterns env_mention),
          "STRIPE_SECRET_KEY".
        repeat split; vm_compute; auto.
  - destruct (C5_error_pattern_is_definitive Script.format_value Script.dedup
                dedup_nodup dedup_in
                [("success", VBool false);
                 ("error", VStr "No response from server");
                 ("stderr", VStr "Error: DATABASE_URL is not set")]
                (nth 4 auth_error_patterns env_mention)
                "DATABASE_URL")
      as (vars & Hx & Hnd & Hin & Hall).
    + reflexivity.
    + do 4 right. left. reflexivity.
    + vm_compute. left. reflexivity.
    + reflexivity.
    + unfold Script.extract. rewrite Hx. f_equal. f_equal.
      apply singleton_set; [exact Hnd |].
      intros y. rewrite Hall. split.
      * intros (p & f & Hp & Hf & Hk & ->).
        vm_compute in Hp.
        repeat (destruct Hp as [<-|Hp];
                [vm_compute in Hf;
                 repeat (destruct Hf as [<-|Hf];
                         [first [discriminate Hk | reflexivity] |]);
                 contradiction |]).
        contradiction.
      * intros ->. exists (nth 4 auth_error_patterns env_mention),
          "DATABASE_URL".
        split; [do 4 right; left; reflexivity |].
        split; [vm_compute; left; reflexivity |].
        split; reflexivity.
Defined.

(** Of the two tokens in this stderr text only MY_API_TOKEN is
    accepted. *)
Lemma C6_stderr_scan_witness :
  exists vars,
    Script.extract [("success", VBool false);
                    ("error", VStr "No response from server");
                    ("stderr", VStr "startup: MY_API_TOKEN and DATABASE_URL unset")]
    = Ok (nonempty vars, vars)
    /\ In "MY_API_TOKEN" vars.
Proof.
  destruct (C6_stderr_scan Script.format_value Script.dedup
              dedup_nodup dedup_in
              [("success", VBool false);
               ("error", VStr "No response from server");
               ("stderr", VStr "startup: MY_API_TOKEN and DATABASE_URL unset")]
              "startup: MY_API_TOKEN and DATABASE_URL unset"
              eq_refl eq_refl eq_refl)
    as (vars & Hx & Hlen & Hnd & Hsound & Hcomplete & Hreq).
  exists vars. split; [exact Hx |].
  destruct (Hcomplete "MY_API_TOKEN") as [Hin|Hfull].
  - vm_compute. left. reflexivity.
  - reflexivity.
  - exact Hin.
  - exfalso.
    assert (Hv : Script.extract
                   [("success", VBool false);
                    ("error", VStr "No response from server");
                    ("stderr", VStr "startup: MY_API_TOKEN and DATABASE_URL unset")]
                 = Ok (true, ["MY_API_TOKEN"])) by (vm_compute; reflexivity).
    unfold Script.extract in Hv. rewrite Hx in Hv.
    injection Hv as _ Hv. rewrite Hv in Hfull. discriminate Hfull.
Defined.

(** ** Termination *)

Lemma ret_ends {W A} (a : A) : ends (ret (W := W) a).
Proof. intros s. exact I. Qed.

Lemma lift_ends {W A} (r : res A) : ends (lift (W := W) r).
Proof. intros s. destruct r; exact I. Qed.

Lemma io_ends {W A} (op : W -> res A * W) : ends (io op).
Proof. intros s. unfold io. destruct (op (world s)) as [[a|e] w]; exact I. Qed.

Lemma bind_ends {W A B} (m : M W A) (k : A -> M W B) :
  ends m -> (forall a, ends (k a)) -> ends (bind m k).
Proof.
  intros Hm Hk s. unfold bind. specialize (Hm s).
  destruct (m s) as [a s1|e s1|s1]; auto. apply Hk.
Qed.

Lemma try_ends {W A} (m : M W A) (h : exn -> M W A) :
  ends m -> (forall e, ends (h e)) -> ends (try_except m h).
Proof.
  intros Hm Hh s. unfold try_except. specialize (Hm s).
  destruct (m s) as [a s1|e s1|s1]; auto. apply Hh.
Qed.

Section Termination.

Variable W : Type.
Variable P : Popen W.
Variable json_dumps : value -> string.
Variable json_loads : string -> res value.
Hypothesis reads_answer : never_stalls P.

Lemma readline_ends : ends (readline W P).
Proof.
  intros s. unfold readline, io_wait.
  destruct (reads_answer (world s)) as [_ H].
  destruct (stdout_readline P (world s)) as [[a|e|] w]; simpl in *; auto.
Qed.

Lemma stderr_read_ends : ends (io_wait (stderr_read P)).
Proof.
  intros s. unfold io_wait.
  destruct (reads_answer (world s)) as [H _].
  destruct (stderr_read P (world s)) as [[a|e|] w]; simpl in *; auto.
Qed.

Lemma write_request_ends (req : value) :
  ends (write_request W P json_dumps req).
Proof.
  unfold write_request.
  apply bind_ends; [apply io_ends | intros _].
  apply bind_ends; [intros s; exact I | intros _; apply io_ends].
Qed.

Lemma list_extra_ends (req : value) (key : string) :
  ends (list_extra W P json_dumps json_loads req key).
Proof.
  unfold list_extra. apply try_ends; [| intros e; apply ret_ends].
  apply bind_ends; [apply write_request_ends | intros _].
  apply bind_ends; [apply readline_ends | intros line; apply ret_ends].
Qed.

Lemma communicate_ends :
  ends (_communicate_with_server W P json_dumps json_loads).
Proof.
  unfold _communicate_with_server. apply try_ends.
  - apply bind_ends.
    + unfold negotiate, ask_initialize.
      apply bind_ends; [| intros asked; apply lift_ends].
      apply bind_ends; [apply write_request_ends | intros _].
      apply bind_ends.
      * unfold peek_stderr. apply try_ends; [| intros e; apply ret_ends].
        apply bind_ends; [apply io_ends | intros [|]];
          [apply stderr_read_ends | apply ret_ends].
      * intros text. apply bind_ends; [apply readline_ends |].
        intros line. apply ret_ends.
    + intros [early|h]; [apply ret_ends |].
      unfold collect_lists.
      apply bind_ends.
      * unfold list_tools.
        apply bind_ends; [apply write_request_ends | intros _].
        apply bind_ends; [apply readline_ends | intros line].
        destruct (is_empty line); [apply ret_ends |].
        destruct (read_tools json_loads line) as [tools|[]];
          first [apply ret_ends | intros s; exact I].
      * intros tools. apply bind_ends; [| intros extra; apply lift_ends].
        unfold list_additional.
        apply bind_ends; [apply list_extra_ends | intros r].
        destruct (snd r); [apply ret_ends |].
        apply bind_ends; [apply list_extra_ends | intros p; apply ret_ends].
  - intros e. unfold communication_failed.
    apply bind_ends; [| intros text; apply ret_ends].
    apply try_ends; [apply stderr_read_ends | intros _; apply ret_ends].
Qed.

(** X19: with a child whose reads all answer, a connection attempt
    returns a result dict: stalled reads are the only way not to end. *)
Lemma connect_returns_a_result (command : string) (s : session W) :
  exists d s',
    connect_to_mcp W P json_dumps json_loads command s = Returned d s'.
Proof.
  assert (He : ends (connect_to_mcp W P json_dumps json_loads command)).
  { unfold connect_to_mcp. apply try_ends; [| intros e; apply ret_ends].
    apply bind_ends.
    - unfold _start_mcp_server. apply try_ends; [| intros e; apply ret_ends].
      apply bind_ends; [apply io_ends | intros _].
      apply bind_ends; [apply io_ends | intros _].
      apply bind_ends; [apply io_ends | intros [c|]; apply ret_ends].
    - intros process. destruct (negb process); [apply ret_ends |].
      apply bind_ends; [apply communicate_ends | intros result].
      apply bind_ends; [| intros _; apply ret_ends].
      unfold _cleanup_process. apply try_ends; [| intros e; apply ret_ends].
      apply bind_ends; [apply io_ends | intros [c|]]; [apply ret_ends |].
      apply bind_ends; [apply io_ends | intros _].
      apply bind_ends; [apply io_ends | intros _].
      apply bind_ends; [apply io_ends | intros [c|]];
        [apply ret_ends | apply io_ends]. }
  specialize (He s).
  pose proof (connect_no_raise W P json_dumps json_loads command s) as Hn.
  destruct (connect_to_mcp W P json_dumps json_loads command s)
    as [d s'|e s'|s']; try contradiction.
  now exists d, s'.
Qed.

End Termination.

(** ** The launch command *)

Lemma prefix_append (p s : string) :
  String.prefix p s = true -> exists r, s = (p ++ r)%string.
Proof.
  revert s. induction p as [|a p IH]; intros s H.
  - now exists s.
  - destruct s as [|b s]; simpl in H; [discriminate |].
    destruct (ascii_dec a b) as [->|]; [| discriminate].
    destruct (IH s H) as [r ->]. now exists r.
Qed.

Lemma split_not_nil (sep : ascii) (s : string) : split sep s <> [].
Proof.
  destruct s as [|c s]; simpl; [discriminate |].
  destruct (Ascii.eqb c sep); [discriminate |].
  destruct (split sep s); discriminate.
Qed.

Lemma join_split (sep : ascii) (s : string) :
  join (String sep EmptyString) (split sep s) = s.
Proof.
  induction s as [|c s IH]; [reflexivity |].
  simpl. destruct (Ascii.eqb c sep) eqn:Hc.
  - apply Ascii.eqb_eq in Hc. subst c.
    pose proof (split_not_nil sep s) as Hne.
    destruct (split sep s) as [|h t]; [contradiction |].
    simpl in *. now rewrite IH.
  - pose proof (split_not_nil sep s) as Hne.
    destruct (split sep s) as [|h t]; [contradiction |].
    destruct t as [|h' t]; simpl in *; now rewrite <- IH.
Qed.

Lemma split_lacks (sep : ascii) (s : string) :
  lacks sep s = true -> split sep s = [s].
Proof.
  induction s as [|c s IH]; [reflexivity |].
  unfold lacks. simpl. intros H. apply andb_prop in H. destruct H as [Hc Hs].
  apply negb_true_iff in Hc. rewrite Hc.
  fold (lacks sep s) in Hs. now rewrite (IH Hs).
Qed.

Lemma parse_command_split (command : string) :
  parse_command command = split " " command.
Proof.
  unfold parse_command.
  destruct (startswith "npx " command) eqn:Hp.
  - apply prefix_append in Hp. destruct Hp as [r ->]. reflexivity.
  - pose proof (split_not_nil " " command) as Hne.
    now destruct (split " " command).
Qed.

(** X1: the argument vector of a launch command is the command split at
    every single space, whether or not it starts with npx; joining the
    vector with spaces gives the command back, so an argument that
    contains a space cannot be passed. *)
Theorem parse_command_is_split (command : string) :
  parse_command command = split " " command
  /\ join " " (parse_command command) = command.
Proof.
  split; [apply parse_command_split |].
  rewrite parse_command_split. apply join_split.
Qed.

Section InstallerFacts.

Variable format_value : value -> string.
Hypothesis format_str : forall s, format_value (VStr s) = s.

(** X2: for a package whose name is a string without a space, the
    command that [generate_install_command] builds is run as the two
    arguments npx and the name, and its install type is npm. *)
Theorem install_command_argv (package : dict) (name : string) :
  dict_get package "name" (VStr "") = VStr name ->
  lacks " " name = true ->
  parse_command (fst (generate_install_command format_value package))
  = ["npx"; name]
  /\ snd (generate_install_command format_value package) = "npm".
Proof.
  intros Hname Hplain.
  unfold generate_install_command, _is_typescript_package. cbn [fst snd].
  rewrite Hname, format_str.
  split; [| reflexivity].
  rewrite parse_command_split.
  change (split " " ("npx " ++ name)) with ("npx" :: split " " name).
  now rewrite (split_lacks " " name Hplain).
Qed.

End InstallerFacts.

(** The package of the filesystem server. *)
Lemma install_command_argv_witness :
  parse_command
    (fst (generate_install_command Script.format_value
            [("name", VStr "@modelcontextprotocol/server-filesystem")]))
  = ["npx"; "@modelcontextprotocol/server-filesystem"].
Proof.
  exact (proj1 (install_command_argv Script.format_value
                  (fun s => eq_refl)
                  [("name", VStr "@modelcontextprotocol/server-filesystem")]
                  "@modelcontextprotocol/server-filesystem"
                  eq_refl eq_refl)).
Defined.

(** ** Start-up and clean-up *)

Section Lifecycle.

Variable W : Type.
Variable P : Popen W.
Variable json_dumps : value -> string.
Variable json_loads : string -> res value.

(** X3: [_start_mcp_server] always returns, without writing to the child,
    and it returns the process exactly when [Popen] succeeded and the
    process is still running after the three seconds; an exception of
    [Popen] and an early exit both give [None]. *)
Theorem start_always_returns (command : string) (s : session W) :
  exists b s',
    _start_mcp_server W P command s = Returned b s'
    /\ sent s' = sent s
    /\ (b = true <->
        exists w1 w2,
          popen P (parse_command command) (world s) = (Ok tt, w1)
          /\ poll P (sleep P 3 w1) = (None, w2)).
Proof.
  unfold _start_mcp_server, try_except, bind, io, ret.
  destruct (popen P (parse_command command) (world s)) as [[[]|e] w1] eqn:Ho;
    simpl.
  - destruct (poll P (sleep P 3 w1)) as [[c|] w2] eqn:Hp; simpl.
    + do 2 eexists. split; [reflexivity |]. split; [reflexivity |].
      split; [discriminate |].
      intros (w1' & w2' & H1 & H2). injection H1 as <-.
      rewrite Hp in H2. discriminate.
    + do 2 eexists. split; [reflexivity |]. split; [reflexivity |].
      split; [| reflexivity]. intros _. now exists w1, w2.
  - do 2 eexists. split; [reflexivity |]. split; [reflexivity |].
    split; [discriminate |].
    intros (w1' & w2' & H1 & _). discriminate.
Qed.

(** X4: [_cleanup_process] always returns, whatever [terminate] and
    [kill] raise, and writes nothing to the child. A process that has
    exited is only polled: no signal is sent. A process that exits
    within the second after [terminate] is not killed. *)
Theorem cleanup_always_returns (s : session W) :
  exists s',
    _cleanup_process W P s = Returned tt s'
    /\ sent s' = sent s
    /\ (forall c w, poll P (world s) = (Some c, w) -> world s' = w)
    /\ (forall w w1 c w2,
          poll P (world s) = (None, w) ->
          terminate P w = (Ok tt, w1) ->
          poll P (sleep P 1 w1) = (Some c, w2) ->
          world s' = w2).
Proof.
  unfold _cleanup_process, try_except, bind, io, ret.
  destruct (poll P (world s)) as [[c|] w] eqn:Hp; simpl.
  - eexists. split; [reflexivity |]. split; [reflexivity |].
    split; [intros c' w' H; now injection H as _ <- | discriminate].
  - destruct (terminate P w) as [[[]|e] w1] eqn:Ht; simpl.
    + destruct (poll P (sleep P 1 w1)) as [[c|] w2] eqn:Hp2; simpl.
      * eexists. split; [reflexivity |]. split; [reflexivity |].
        split; [discriminate |].
        intros w' w1' c' w2' H1 H2 H3. injection H1 as <-.
        rewrite Ht in H2. injection H2 as <-.
        rewrite Hp2 in H3. now injection H3 as _ <-.
      * destruct (kill P w2) as [[[]|e] w3]; simpl;
          (eexists; split; [reflexivity |]; split; [reflexivity |];
           split; [discriminate |]);
          intros w' w1' c' w2' H1 H2 H3; injection H1 as <-;
          rewrite Ht in H2; injection H2 as <-;
          rewrite Hp2 in H3; discriminate.
    + eexists. split; [reflexivity |]. split; [reflexivity |].
      split; [discriminate |].
      intros w' w1' c' w2' H1 H2. injection H1 as <-.
      rewrite Ht in H2. discriminate.
Qed.

End Lifecycle.

(** The process that has exited with status 1 is left as it is. *)
Lemma cleanup_always_returns_witness :
  _cleanup_process Script.child Script.process
    (Script.start Script.exits_early)
  = Returned tt (Script.start Script.exits_early).
Proof.
  destruct (cleanup_always_returns Script.child Script.process
              (Script.start Script.exits_early))
    as (s' & Hrun & Hsent & Hexited & _).
  rewrite Hrun. f_equal.
  specialize (Hexited 1%Z Script.exits_early eq_refl).
  destruct s' as [w l]. simpl in *. now subst.
Defined.

Lemma lines_never_stall : never_stalls Lines.process.
Proof.
  intros w. split; simpl; [discriminate |].
  destruct w; simpl; discriminate.
Qed.

(** A child that answers initialize with an empty object and then closes
    its output. *)
Lemma connect_returns_a_result_witness :
  exists d s,
    connect_to_mcp (list string) Lines.process Script.dumps Script.loads
      Script.command {| world := [Script.line_empty_object]; sent := [] |}
    = Returned d s.
Proof.
  exact (connect_returns_a_result (list string) Lines.process
           Script.dumps Script.loads lines_never_stall Script.command
           {| world := [Script.line_empty_object]; sent := [] |}).
Defined.

(** ** The result dicts of a connection attempt *)

Lemma log_tool_object (tool : value) :
  log_tool tool = Ok tt -> is_object tool = true.
Proof. destruct tool; simpl; try discriminate. reflexivity. Qed.

Lemma for_each_log_tool (l : list value) :
  for_each log_tool l = Ok tt -> forallb is_object l = true.
Proof.
  induction l as [|v l IH]; [reflexivity |].
  simpl. unfold rbind at 1.
  destruct (log_tool v) as [[]|e] eqn:Hv; [| discriminate].
  intros H. rewrite (log_tool_object v Hv). simpl. now apply IH.
Qed.

Section ResultFacts.

Variable W : Type.
Variable P : Popen W.
Variable json_dumps : value -> string.
Variable json_loads : string -> res value.

Local Abbreviation negotiate' := (negotiate W P json_dumps json_loads).
Local Abbreviation list_tools' := (list_tools W P json_dumps json_loads).
Local Abbreviation list_extra' := (list_extra W P json_dumps json_loads).
Local Abbreviation communicate' :=
  (_communicate_with_server W P json_dumps json_loads).
Local Abbreviation connect' := (connect_to_mcp W P json_dumps json_loads).

(** What the [try] block around a tools line leaves in [tools] is a list
    of objects. *)
Lemma read_tools_objects (line : string) (tools : value) :
  read_tools json_loads line = Ok tools ->
  exists l, tools = VList l /\ forallb is_object l = true.
Proof.
  unfold read_tools, rbind.
  destruct (json_loads (strip line)) as [response|e]; [| discriminate].
  destruct (result_of response "tools" VNone) as [found|e]; [| discriminate].
  destruct (truthy found) eqn:Ht.
  - destruct (len found) as [n|e]; [| discriminate].
    destruct (iter found) as [each|e] eqn:Hi; [| discriminate].
    destruct (for_each log_tool each) as [[]|e] eqn:Hf; [| discriminate].
    intros H. injection H as <-.
    destruct found as [| | | |text|l|items]; try discriminate.
    + destruct text as [|c text]; [discriminate |].
      injection Hi as <-. simpl in Hf. discriminate.
    + injection Hi as <-. exists l. split; [reflexivity |].
      now apply for_each_log_tool.
    + destruct items as [|[k v] items]; [discriminate |].
      injection Hi as <-. simpl in Hf. discriminate.
  - intros H. injection H as <-. now exists [].
Qed.

Lemma list_tools_returns :
  returns (fun tools => exists l, tools = VList l /\ forallb is_object l = true)
    list_tools'.
Proof.
  unfold list_tools. apply returns_bind. intros _.
  apply returns_bind. intros line.
  destruct (is_empty line); [apply returns_ret; now exists [] |].
  destruct (read_tools json_loads line) as [tools|e] eqn:Hr.
  - apply returns_ret. now apply read_tools_objects in Hr.
  - destruct e; first [apply returns_ret; now exists [] | intros s; exact I].
Qed.

(** The ways in which the session returns a dict. *)
Lemma communicate_returns_cases (Q : dict -> Prop) :
  (forall stderr_text line d,
     read_initialize json_loads stderr_text line = Ok (inl d) -> Q d) ->
  (forall h l resources prompts n_tools n_resources n_prompts,
     forallb is_object l = true ->
     len (VList l) = Ok n_tools -> len resources = Ok n_resources ->
     len prompts = Ok n_prompts ->
     Q (success_result h (VList l) resources prompts
          n_tools n_resources n_prompts)) ->
  (forall e text,
     Q [("success", VBool false); ("error", VStr (str_exn e));
        ("stderr", VStr text)]) ->
  returns Q communicate'.
Proof.
  intros Hearly Hsuccess Hfailed.
  unfold _communicate_with_server. apply returns_try.
  - intros s. unfold bind.
    assert (Hn : returns (fun n => match n with
                                   | inl d => Q d
                                   | inr _ => True
                                   end) negotiate').
    { unfold negotiate. apply returns_bind. intros asked. apply returns_lift.
      intros [d|h] H; [| exact I]. now apply Hearly in H. }
    specialize (Hn s).
    destruct (negotiate' s) as [[d|h] s1|e s1|s1]; simpl; auto.
    unfold collect_lists, bind.
    pose proof (list_tools_returns s1) as Ht.
    destruct (list_tools' s1) as [tools s2|e s2|s2]; auto.
    destruct Ht as (l & -> & Hl).
    destruct (list_additional W P json_dumps json_loads s2)
      as [extra s3|e s3|s3]; auto.
    unfold summarise, rbind, lift, ret, raise.
    destruct (len (VList l)) as [n1|e] eqn:H1; [| exact I].
    destruct (len (fst extra)) as [n2|e] eqn:H2; [| exact I].
    destruct (len (snd extra)) as [n3|e] eqn:H3; [| exact I].
    now apply Hsuccess.
  - intros e. unfold communication_failed. apply returns_bind. intros text.
    apply returns_ret, Hfailed.
Qed.

Lemma start_no_raise (command : string) :
  no_raise (_start_mcp_server W P command).
Proof. apply try_no_raise. intros e. apply ret_no_raise. Qed.

Lemma cleanup_no_raise : no_raise (_cleanup_process W P).
Proof. apply try_no_raise. intros e. apply ret_no_raise. Qed.

Lemma connect_returns_cases (Q : dict -> Prop) (command : string) :
  Q [("success", VBool false); ("error", VStr "Failed to start MCP server")] ->
  returns Q communicate' ->
  returns Q (connect' command).
Proof.
  intros Hstart Hcomm s.
  unfold connect_to_mcp, try_except, bind.
  pose proof (start_no_raise command s) as Hs.
  destruct (_start_mcp_server W P command s) as [b s1|e s1|s1];
    [| contradiction | exact I].
  destruct b; simpl; [| exact Hstart].
  specialize (Hcomm s1).
  pose proof (communicate_no_raise W P json_dumps json_loads s1) as Hc.
  destruct (communicate' s1) as [d s2|e s2|s2]; [| contradiction | exact I].
  pose proof (cleanup_no_raise s2) as Hk.
  destruct (_cleanup_process W P s2) as [u s3|e s3|s3];
    [exact Hcomm | contradiction | exact I].
Qed.

End ResultFacts.

Section ResultClaims.

Variable W : Type.
Variable P : Popen W.
Variable json_dumps : value -> string.
Variable json_loads : string -> res value.

Local Abbreviation negotiate' := (negotiate W P json_dumps json_loads).
Local Abbreviation list_tools' := (list_tools W P json_dumps json_loads).
Local Abbreviation list_extra' := (list_extra W P json_dumps json_loads).
Local Abbreviation communicate' :=
  (_communicate_with_server W P json_dumps json_loads).
Local Abbreviation connect' := (connect_to_mcp W P json_dumps json_loads).

(** X5: in every result with [success] true the [tools] entry is a list
    of JSON objects, whatever the server answered to tools/list: an
    answer of another shape makes the attempt fail instead. *)
Theorem success_tools_are_objects (command : string) (s s' : session W)
  (d : dict) :
  connect' command s = Returned d s' ->
  lookup "success" d = Some (VBool true) ->
  exists l, lookup "tools" d = Some (VList l) /\ forallb is_object l = true.
Proof.
  intros Hrun.
  assert (H : returns (fun d => lookup "success" d = Some (VBool true) ->
                         exists l, lookup "tools" d = Some (VList l)
                                   /\ forallb is_object l = true)
                (connect' command)).
  { apply connect_returns_cases; [discriminate |].
    apply communicate_returns_cases.
    - intros stderr_text line d' Hd Hs.
      apply read_initialize_early in Hd. destruct Hd as [Hf _]. congruence.
    - intros h l resources prompts n1 n2 n3 Hl _ _ _ _. now exists l.
    - discriminate. }
  specialize (H s). now rewrite Hrun in H.
Qed.

(** X6: in every result with [success] true, [total_functionality] is
    the sum of the lengths of the [tools], [resources] and [prompts]
    entries, each of which has a length. *)
Theorem success_counts_add_up (command : string) (s s' : session W)
  (d : dict) :
  connect' command s = Returned d s' ->
  lookup "success" d = Some (VBool true) ->
  exists tools resources prompts n_tools n_resources n_prompts,
    lookup "tools" d = Some tools /\ len tools = Ok n_tools
    /\ lookup "resources" d = Some resources
    /\ len resources = Ok n_resources
    /\ lookup "prompts" d = Some prompts /\ len prompts = Ok n_prompts
    /\ lookup "total_functionality" d
       = Some (VInt (n_tools + n_resources + n_prompts))
    /\ (0 <= n_tools /\ 0 <= n_resources /\ 0 <= n_prompts)%Z.
Proof.
  intros Hrun.
  assert (H : returns (fun d => lookup "success" d = Some (VBool true) ->
      exists tools resources prompts n_tools n_resources n_prompts,
        lookup "tools" d = Some tools /\ len tools = Ok n_tools
        /\ lookup "resources" d = Some resources
        /\ len resources = Ok n_resources
        /\ lookup "prompts" d = Some prompts /\ len prompts = Ok n_prompts
        /\ lookup "total_functionality" d
           = Some (VInt (n_tools + n_resources + n_prompts))
        /\ (0 <= n_tools /\ 0 <= n_resources /\ 0 <= n_prompts)%Z)
                (connect' command)).
  { apply connect_returns_cases; [discriminate |].
    apply communicate_returns_cases.
    - intros stderr_text line d' Hd Hs.
      apply read_initialize_early in Hd. destruct Hd as [Hf _]. congruence.
    - intros h l resources prompts n1 n2 n3 _ H1 H2 H3 _.
      exists (VList l), resources, prompts, n1, n2, n3.
      repeat split; auto.
      + injection H1 as <-. lia.
      + destruct resources; try discriminate; injection H2 as <-; lia.
      + destruct prompts; try discriminate; injection H3 as <-; lia.
    - discriminate. }
  specialize (H s). now rewrite Hrun in H.
Qed.

(** X7: when the line that answers initialize is not JSON, the result is
    the invalid-JSON dict with the captured stderr text and, as
    [raw_response], the first 200 characters of the line at most. *)
Theorem invalid_json_keeps_raw_line (s s1 : session W)
  (stderr_text line msg : string) :
  ask_initialize W P json_dumps s = Returned (stderr_text, line) s1 ->
  is_empty line = false ->
  json_loads (strip line) = Err (JSONDecodeError msg) ->
  exists raw,
    communicate' s
    = Returned [("success", VBool false);
                ("error", VStr "Invalid JSON response");
                ("stderr", VStr stderr_text);
                ("raw_response", VStr raw)] s1
    /\ String.prefix raw line = true
    /\ String.length raw = Nat.min 200 (String.length line).
Proof.
  intros Hask Hline Hload.
  exists (sfirstn 200 line). split; [| split].
  - unfold _communicate_with_server, try_except, negotiate, bind.
    rewrite Hask. simpl. unfold read_initialize, rbind.
    now rewrite Hline, Hload.
  - generalize 200. clear. induction line as [|c line IH]; intros [|n];
      simpl; auto.
    destruct (ascii_dec c c); [apply IH | contradiction].
  - generalize 200. clear. induction line as [|c line IH]; intros [|n];
      simpl; auto.
Qed.

(** X8: a resources/list exchange that ends with an exception does not
    lose what was obtained before it: the result has [success] true, the
    tools of tools/list, whatever [resources] held when the exception
    came, and no prompts. *)
Theorem resources_failure_keeps_tools (s s1 s2 s3 : session W)
  (h : handshake) (tools v : value) (e : exn) (n : Z) :
  negotiate' s = Returned (inr h) s1 ->
  list_tools' s1 = Returned tools s2 ->
  list_extra' resources_request "resources" s2 = Returned (v, Some e) s3 ->
  len v = Ok n ->
  exists d,
    communicate' s = Returned d s3
    /\ lookup "success" d = Some (VBool true)
    /\ lookup "tools" d = Some tools
    /\ lookup "resources" d = Some v
    /\ lookup "prompts" d = Some (VList []).
Proof.
  intros Hneg Htools Hres Hlen.
  pose proof (list_tools_returns W P json_dumps json_loads s1) as Ht.
  rewrite Htools in Ht. destruct Ht as (l & -> & _).
  eexists. split.
  - unfold _communicate_with_server, try_except, bind.
    rewrite Hneg. unfold collect_lists, list_additional, bind.
    rewrite Htools, Hres. simpl.
    unfold summarise, rbind. rewrite Hlen. reflexivity.
  - repeat split.
Qed.

End ResultClaims.

(** A server with two tools. *)
Lemma success_tools_are_objects_witness :
  exists l,
    forallb is_object l = true /\ List.length l = 2
    /\ exists d s,
         Served.connect Served.two_tools_then_number = Returned d s
         /\ lookup "tools" d = Some (VList l).
Proof.
  assert (Hrun : exists d s,
             Served.connect Served.two_tools_then_number = Returned d s
             /\ lookup "success" d = Some (VBool true)
             /\ exists l, lookup "tools" d = Some (VList l)
                          /\ List.length l = 2).
  { do 2 eexists. split; [vm_compute; reflexivity |].
    split; [reflexivity |]. eexists. split; reflexivity. }
  destruct Hrun as (d & s & Hrun & Hok & l & Hl & Hlen).
  pose proof Hrun as Hrun'. unfold Served.connect in Hrun'.
  destruct (success_tools_are_objects Script.child Script.process
              Script.dumps Served.loads Script.command
              (Script.start Served.two_tools_then_number) s d Hrun' Hok)
    as (l' & Hl' & Hobj).
  exists l. rewrite Hl in Hl'. injection Hl' as ->.
  split; [exact Hobj |]. split; [exact Hlen |].
  exists d, s. split; assumption.
Defined.

(** The same server: two tools, no resources, no prompts. *)
Lemma success_counts_add_up_witness :
  exists d s,
    Served.connect Served.two_tools_then_number = Returned d s
    /\ lookup "total_functionality" d = Some (VInt 2).
Proof.
  assert (Hrun : exists d s,
             Served.connect Served.two_tools_then_number = Returned d s
             /\ lookup "success" d = Some (VBool true)
             /\ lookup "total_functionality" d = Some (VInt 2)).
  { do 2 eexists. split; [vm_compute; reflexivity |]. split; reflexivity. }
  destruct Hrun as (d & s & Hrun & Hok & Htotal).
  pose proof Hrun as Hrun'. unfold Served.connect in Hrun'.
  destruct (success_counts_add_up Script.child Script.process
              Script.dumps Served.loads Script.command
              (Script.start Served.two_tools_then_number) s d Hrun' Hok)
    as (t & r & p & n1 & n2 & n3 & _).
  exists d, s. split; assumption.
Defined.

(** A server that prints a banner instead of an answer. *)
Lemma invalid_json_keeps_raw_line_witness :
  exists raw s,
    Script.communicate (Script.serving [Script.line_not_json])
    = Returned [("success", VBool false);
                ("error", VStr "Invalid JSON response");
                ("stderr", VStr "");
                ("raw_response", VStr raw)] s
    /\ String.length raw = 26.
Proof.
  destruct (invalid_json_keeps_raw_line Script.child Script.process
              Script.dumps Script.loads
              (Script.start (Script.serving [Script.line_not_json]))
              {| world := Script.serving []; sent := [init_request] |}
              "" Script.line_not_json
              "Expecting value: line 1 column 1 (char 0)"
              eq_refl eq_refl eq_refl)
    as (raw & Hrun & _ & Hlen).
  exists raw. eexists. split; [exact Hrun | exact Hlen].
Defined.

(** The server with two tools that answers resources/list with 5. *)
Lemma resources_failure_keeps_tools_witness :
  exists d s,
    Served.communicate Served.two_tools_then_number = Returned d s
    /\ lookup "success" d = Some (VBool true)
    /\ lookup "tools" d
       = Some (VList [VDict [("name", VStr "read_file")];
                      VDict [("name", VStr "write_file")]])
    /\ lookup "prompts" d = Some (VList []).
Proof.
  edestruct (resources_failure_keeps_tools Script.child Script.process
               Script.dumps Served.loads
               (Script.start Served.two_tools_then_number))
    as (d & Hrun & Hok & Htools & Hres & Hprompts);
    [vm_compute; reflexivity .. |].
  exists d. eexists. repeat split; eassumption.
Defined.

(** ** More facts about the regular expressions *)

Lemma sall_append (p : ascii -> bool) (a b : string) :
  sall p (a ++ b) = andb (sall p a) (sall p b).
Proof.
  induction a as [|c a IH]; simpl; [reflexivity |].
  now rewrite IH, andb_assoc.
Qed.

Lemma sall_both (p q r : ascii -> bool) (s : string) :
  (forall a, p a = true -> q a = true -> r a = true) ->
  sall p s = true -> sall q s = true -> sall r s = true.
Proof.
  intros H. induction s as [|c s IH]; simpl; [reflexivity |].
  intros Hp Hq. apply andb_prop in Hp. apply andb_prop in Hq.
  destruct Hp as [Hp1 Hp2]. destruct Hq as [Hq1 Hq2].
  now rewrite (H c Hp1 Hq1), IH.
Qed.

Lemma upper_ascii_not_lower (a : ascii) :
  is_lower_letter (upper_ascii a) = false.
Proof. destruct a as [[] [] [] [] [] [] [] []]; reflexivity. Qed.

Lemma upper_no_lower (s : string) : no_lower (upper s) = true.
Proof.
  induction s as [|c s IH]; [reflexivity |].
  unfold no_lower, upper in *. simpl.
  now rewrite upper_ascii_not_lower, IH.
Qed.

Lemma accepts_upper_letter (a : ascii) :
  negb (is_lower_letter a) = true ->
  Re.accepts true upper_letter a = true ->
  is_upper_letter a = true.
Proof. destruct a as [[] [] [] [] [] [] [] []]; simpl; auto. Qed.

Lemma accepts_ident_char (a : ascii) :
  Re.accepts true ident_char a = true ->
  negb (is_lower_letter a) = true ->
  is_ident_char a = true.
Proof.
  destruct a as [[] [] [] [] [] [] [] []]; vm_compute; auto.
Qed.

Lemma ident_char_upper (a : ascii) :
  is_ident_char a = true -> upper_ascii a = a.
Proof.
  destruct a as [[] [] [] [] [] [] [] []]; vm_compute; auto; discriminate.
Qed.

Lemma upper_letter_ident (a : ascii) :
  is_upper_letter a = true -> is_ident_char a = true.
Proof. unfold is_ident_char, is_upper_letter. now intros ->. Qed.

(** What a successful match hands to its continuation keeps every
    property that holds of all characters of the text. *)
Lemma match_items_rest {R} (q : ascii -> bool) (ic : bool)
  (k : string -> option R) (r : R) :
  forall (items : list Re.item) (s : string),
    Re.match_items ic items s k = Some r ->
    sall q s = true ->
    exists s', sall q s' = true /\ k s' = Some r.
Proof.
  induction items as [|[c|c|n c] items IH]; intros s H Hq; simpl in H.
  - now exists s.
  - destruct s as [|a s]; [discriminate |].
    destruct (Re.accepts ic c a); [| discriminate].
    simpl in Hq. apply andb_prop in Hq. now apply (IH s).
  - destruct s as [|a s].
    + now apply (IH EmptyString).
    + destruct (Re.accepts ic c a).
      * destruct (Re.match_items ic items s k) as [r'|] eqn:Hm.
        -- injection H as <-. simpl in Hq. apply andb_prop in Hq.
           now apply (IH s).
        -- now apply (IH (String a s)).
      * now apply (IH (String a s)).
  - apply greedy_sound in H.
    destruct H as (taken & rest & -> & _ & _ & Hk).
    rewrite sall_append in Hq. apply andb_prop in Hq.
    now apply (IH rest).
Qed.

(** The group of a match of one of the error patterns in a text without
    lower-case letters is a token of at least four characters, and the
    text after the match has no lower-case letter either. *)
Lemma around_match_token (pre post : list Re.item) (s g rest : string) :
  Re.match_at true (around pre post) s = Some (g, rest) ->
  no_lower s = true ->
  env_token 3 g = true /\ no_lower rest = true.
Proof.
  unfold Re.match_at, around, no_lower. cbn [Re.before Re.group Re.after].
  intros H Hs.
  apply (match_items_rest (fun a => negb (is_lower_letter a))) in H;
    [| exact Hs].
  destruct H as (s1 & Hs1 & H).
  unfold name_group in H. cbn [Re.match_items] in H.
  destruct s1 as [|a s1]; [discriminate |].
  destruct (Re.accepts true upper_letter a) eqn:Ha; [| discriminate].
  apply greedy_sound in H.
  destruct H as (taken & rest' & -> & Hlen & Hall & Hk).
  cbn [sall] in Hs1. apply andb_prop in Hs1. destruct Hs1 as [Hna Hs1].
  rewrite sall_append in Hs1. apply andb_prop in Hs1.
  destruct Hs1 as [Hnt Hnr].
  apply (match_items_rest (fun a => negb (is_lower_letter a))) in Hk;
    [| exact Hnr].
  destruct Hk as (s3 & Hs3 & Hk).
  assert (Hg : g = sfirstn (String.length (String a (taken ++ rest'))
                            - String.length rest')
                           (String a (taken ++ rest')) /\ rest = s3)
    by (cbv beta in Hk; split; congruence).
  destruct Hg as [-> ->]. split; [| exact Hs3].
  replace (String.length (String a (taken ++ rest')) - String.length rest')
    with (S (String.length taken))
    by (cbn [String.length]; rewrite length_append; lia).
  cbn [sfirstn]. rewrite sfirstn_append.
  unfold env_token.
  rewrite (accepts_upper_letter a Hna Ha). cbn [andb].
  apply andb_true_intro. split; [| now apply Nat.leb_le].
  apply (sall_both (Re.accepts true ident_char)
           (fun a => negb (is_lower_letter a))); auto.
  apply accepts_ident_char.
Qed.

Lemma sall_tail (p : ascii -> bool) (a : ascii) (s : string) :
  sall p (String a s) = true -> sall p s = true.
Proof. simpl. intros H. now apply andb_prop in H. Qed.

Lemma findall_around_token (pre post : list Re.item) (g : string) :
  forall (fuel : nat) (s : string),
    In g (Re.findall_from fuel true (around pre post) s) ->
    no_lower s = true ->
    env_token 3 g = true.
Proof.
  induction fuel as [|fuel IH]; intros s H Hs; simpl in H; [contradiction |].
  destruct (Re.match_at true (around pre post) s) as [[g' rest]|] eqn:Hm.
  - destruct (around_match_token pre post s g' rest Hm Hs) as [Hg Hrest].
    destruct (Nat.ltb (String.length rest) (String.length s)).
    + destruct H as [<-|H]; [exact Hg | now apply (IH rest)].
    + destruct H as [<-|H]; [exact Hg |].
      destruct s as [|a s]; [contradiction |].
      apply (IH s H). now apply sall_tail in Hs.
  - destruct s as [|a s]; [contradiction |].
    apply (IH s H). now apply sall_tail in Hs.
Qed.

Lemma error_pattern_shape (p : Re.pattern) :
  In p auth_error_patterns -> exists pre post, p = around pre post.
Proof.
  intros H. simpl in H.
  repeat (destruct H as [<-|H]; [eexists; eexists; reflexivity |]).
  contradiction.
Qed.

Lemma env_token_upper (n : nat) (x : string) :
  env_token n x = true -> upper x = x.
Proof.
  destruct x as [|a x]; [reflexivity |].
  unfold env_token. intros H.
  apply andb_prop in H. destruct H as [Ha H].
  apply andb_prop in H. destruct H as [Hx _].
  unfold upper. simpl.
  rewrite (ident_char_upper a (upper_letter_ident a Ha)). f_equal.
  induction x as [|c x IH]; [reflexivity |].
  simpl in *. apply andb_prop in Hx. destruct Hx as [Hc Hx].
  now rewrite (ident_char_upper c Hc), IH.
Qed.

Lemma env_token_weaken (n m : nat) (x : string) :
  m <= n -> env_token n x = true -> env_token m x = true.
Proof.
  destruct x as [|a x]; [auto |].
  unfold env_token. intros Hle H.
  apply andb_prop in H. destruct H as [Ha H].
  apply andb_prop in H. destruct H as [Hx Hn].
  rewrite Ha, Hx. simpl. apply Nat.leb_le. apply Nat.leb_le in Hn. lia.
Qed.

(** The names of the first tier are tokens that mention a keyword. *)
Lemma detect_in_errors_tokens (text x : string) :
  In x (detect_in_errors (upper text)) ->
  env_token 3 x = true /\ mentions error_keywords x = true.
Proof.
  intros H. apply detect_in_errors_spec in H.
  destruct H as (p & found & Hp & Hf & Hk & ->).
  apply error_pattern_shape in Hp. destruct Hp as (pre & post & ->).
  apply findall_around_token in Hf; [| apply upper_no_lower].
  rewrite (env_token_upper 3 found Hf). now split.
Qed.

Lemma mentions_weaken (x : string) :
  mentions stderr_keywords x = true -> mentions error_keywords x = true.
Proof.
  unfold mentions, stderr_keywords, error_keywords. simpl.
  intros H. repeat (apply orb_prop in H; destruct H as [H|H];
                    [rewrite H; now rewrite ?orb_true_r |]).
  discriminate.
Qed.

(** ** More of what the detector returns *)

Section DetectorFacts.

Variable format_value : value -> string.
Hypothesis format_str : forall s, format_value (VStr s) = s.
Variable list_of_set : list string -> list string.
Hypothesis list_of_set_nodup : forall l, NoDup (list_of_set l).
Hypothesis list_of_set_in : forall l x, In x (list_of_set l) <-> In x l.

Local Abbreviation extract' :=
  (extract_auth_from_mcp_result format_value list_of_set).

Lemma list_of_set_nonempty (l : list string) :
  nonempty (list_of_set l) = nonempty l.
Proof.
  destruct l as [|a l].
  - destruct (list_of_set []) as [|x xs] eqn:E; [reflexivity |].
    exfalso. apply (list_of_set_in [] x). rewrite E. now left.
  - destruct (list_of_set (a :: l)) as [|x xs] eqn:E; [| reflexivity].
    exfalso. assert (H : In a (list_of_set (a :: l)))
      by (apply list_of_set_in; now left).
    now rewrite E in H.
Qed.

(** The three ways in which the detector returns. *)
Lemma extract_cases (d : dict) (b : bool) (vars : list string) :
  extract' d = Ok (b, vars) ->
  (b = true /\ vars = list_of_set (tier1 format_value d)
   /\ nonempty (tier1 format_value d) = true
   /\ truthy (dict_get d "success" (VBool false)) = false)
  \/ (b = false /\ vars = []
      /\ truthy (dict_get d "success" (VBool false)) = true)
  \/ (exists mentioned,
        tier3 d = Ok mentioned
        /\ vars = firstn 5 (list_of_set mentioned)
        /\ b = nonempty vars
        /\ truthy (dict_get d "success" (VBool false)) = false).
Proof.
  unfold extract_auth_from_mcp_result.
  destruct (truthy (dict_get d "success" (VBool false))) eqn:Hs; simpl.
  - unfold rbind. destruct (inspect_server_info d); [| discriminate].
    intros H. injection H as <- <-. right. left. auto.
  - destruct (nonempty (tier1 format_value d)) eqn:Hn.
    + intros H. injection H as <- <-. left. auto.
    + destruct (tier1 format_value d) as [|x xs]; [| discriminate].
      unfold rbind. destruct (tier3 d) as [mentioned|e]; [| discriminate].
      intros H. injection H as <- <-. right. right.
      exists mentioned. auto.
Qed.

(** X9: whenever the detector returns, [required] is true exactly when
    it names at least one variable, and no variable is named twice. *)
Theorem required_iff_named (d : dict) (b : bool) (vars : list string) :
  extract' d = Ok (b, vars) ->
  b = nonempty vars /\ NoDup vars.
Proof.
  intros H. apply extract_cases in H.
  destruct H as [(-> & -> & Hn & _)|[(-> & -> & _)|(m & _ & -> & -> & _)]].
  - split; [now rewrite list_of_set_nonempty | apply list_of_set_nodup].
  - split; [reflexivity | constructor].
  - split; [reflexivity | apply firstn_nodup, list_of_set_nodup].
Qed.

(** X10: when the error and stderr entries of the result, as the
    f-string renders them, are ASCII text, every name the detector
    returns is an upper-case identifier token of at least four characters
    (a letter A-Z followed by letters A-Z, digits or underscores) that
    contains one of the keywords key, token, secret, auth, api, url,
    client. *)
Theorem named_variables_are_tokens (d : dict) (b : bool)
  (vars : list string) (x : string) :
  is_ascii_text (format_value (dict_get d "error" (VStr ""))) = true ->
  is_ascii_text (format_value (dict_get d "stderr" (VStr ""))) = true ->
  extract' d = Ok (b, vars) ->
  In x vars ->
  env_token 3 x = true /\ mentions error_keywords x = true.
Proof.
  intros _ _ H Hx. apply extract_cases in H.
  destruct H as [(_ & -> & _ & Hs)|[(_ & -> & _)|(m & Ht & -> & _ & _)]].
  - apply (proj1 (list_of_set_in _ _)) in Hx.
    rewrite (tier1_failed format_value d Hs) in Hx.
    unfold combined_errors in Hx. now apply detect_in_errors_tokens in Hx.
  - contradiction.
  - apply firstn_subset in Hx. apply (proj1 (list_of_set_in _ _)) in Hx.
    revert Ht. unfold tier3.
    destruct (truthy (dict_get d "stderr" (VStr "")));
      [| intros E; injection E as <-; contradiction].
    destruct (dict_get d "stderr" (VStr "")); try discriminate.
    intros E. injection E as <-. apply filter_In in Hx.
    destruct Hx as [Hf Hk]. split.
    + apply (env_token_weaken 4 3); [lia |].
      now apply (env_mention_token s).
    + now apply mentions_weaken.
Qed.

(** X11: a result with [success] true whose server info is absent, or is
    an object whose [name] and [version] are strings or absent, is
    classified as needing no authentication, whatever its error and
    stderr entries hold. *)
Theorem connected_means_no_auth (d : dict) :
  truthy (dict_get d "success" (VBool false)) = true ->
  lookup "server_info" d = None
  \/ (exists items name version,
        lookup "server_info" d = Some (VDict items)
        /\ dict_get items "name" (VStr "") = VStr name
        /\ dict_get items "version" (VStr "") = VStr version) ->
  extract' d = Ok (false, []).
Proof.
  intros Hs Hinfo.
  assert (Hi : inspect_server_info d = Ok tt).
  { unfold inspect_server_info, dict_get.
    destruct Hinfo as [->|(items & name & version & -> & Hn & Hv)];
      [reflexivity |].
    destruct (truthy (VDict items)); [| reflexivity].
    unfold get, rbind. now rewrite Hn, Hv. }
  unfold extract_auth_from_mcp_result. now rewrite Hs, Hi.
Qed.

Section ProbeFacts.

Variable W : Type.
Variable P : Popen W.
Variable json_dumps : value -> string.
Variable json_loads : string -> res value.

Local Abbreviation connect' := (connect_to_mcp W P json_dumps json_loads).

Lemma connect_stderr_is_text (command : string) :
  returns stderr_is_text (connect' command).
Proof.
  apply connect_returns_cases; [exact I |].
  apply communicate_returns_cases.
  - intros stderr_text line d Hd. revert Hd.
    unfold read_initialize, rbind.
    destruct (is_empty line); [intros E; injection E as <-; exact I |].
    destruct (json_loads (strip line)) as [v|e].
    + destruct (result_of v "protocolVersion" (VStr "unknown version"))
        as [pv|e].
      * destruct (get v "result" (VDict [])) as [r|e]; [| discriminate].
        destruct (get r "protocolVersion" VNone); [| discriminate].
        destruct (get r "serverInfo" (VDict [])); [| discriminate].
        destruct (get r "capabilities" (VDict [])) as [caps|];
          [| discriminate].
        destruct (keys caps); discriminate.
      * destruct e; try discriminate. intros E; injection E as <-; exact I.
    + destruct e; try discriminate. intros E; injection E as <-; exact I.
  - intros. exact I.
  - intros. exact I.
Qed.

(** X12: on every failure result of [connect_to_mcp] the detector
    returns: it raises on no failed connection attempt, whatever the
    child did. *)
Theorem detector_accepts_failures (command : string) (s s' : session W)
  (d : dict) :
  connect' command s = Returned d s' ->
  lookup "success" d = Some (VBool false) ->
  exists vars, extract' d = Ok (nonempty vars, vars).
Proof.
  intros Hrun Hfail.
  pose proof (connect_stderr_is_text command s) as Htext.
  rewrite Hrun in Htext.
  assert (Hs : truthy (dict_get d "success" (VBool false)) = false)
    by (unfold dict_get; now rewrite Hfail).
  unfold extract_auth_from_mcp_result. rewrite Hs. simpl.
  destruct (nonempty (tier1 format_value d)) eqn:Hn.
  - exists (list_of_set (tier1 format_value d)).
    now rewrite list_of_set_nonempty, Hn.
  - assert (Ht : exists mentioned, tier3 d = Ok mentioned).
    { unfold tier3, dict_get. unfold stderr_is_text in Htext.
      destruct (lookup "stderr" d) as [[| | | |text|l|items]|];
        try contradiction; [| now eexists].
      destruct (truthy (VStr text)); now eexists. }
    destruct Ht as [mentioned ->]. simpl. now eexists.
Qed.

(** X13: when the process cannot be started or has exited by the end of
    the grace period, its stderr is never read: the result is the
    failed-start dict, and the detector finds no authentication
    requirement in it, whatever the process printed. *)
Theorem failed_start_hides_auth (command : string) (s s1 : session W) :
  _start_mcp_server W P command s = Returned false s1 ->
  exists d,
    connect' command s = Returned d s1
    /\ lookup "stderr" d = None
    /\ extract' d = Ok (false, []).
Proof.
  intros Hstart.
  exists [("success", VBool false);
          ("error", VStr "Failed to start MCP server")].
  split; [| split; [reflexivity |]].
  - unfold connect_to_mcp, try_except, bind. now rewrite Hstart.
  - assert (Hnone : list_of_set [] = []).
    { destruct (list_of_set []) as [|x xs] eqn:E; [reflexivity |].
      exfalso. apply (list_of_set_in [] x). rewrite E. now left. }
    assert (Ht1 : tier1 format_value
                    [("success", VBool false);
                     ("error", VStr "Failed to start MCP server")] = []).
    { rewrite tier1_failed by reflexivity.
      rewrite (combined_errors_text format_value format_str
                 [("success", VBool false);
                  ("error", VStr "Failed to start MCP server")]
                 "Failed to start MCP server" "" eq_refl eq_refl).
      vm_compute. reflexivity. }
    unfold extract_auth_from_mcp_result. rewrite Ht1.
    cbn. now rewrite Hnone.
Qed.

End ProbeFacts.

End DetectorFacts.

(** The failed result of a server that complains about two variables. *)
Lemma required_iff_named_witness :
  Script.extract
    [("success", VBool false);
     ("error", VStr "No response from server");
     ("stderr", VStr "Error: GITHUB_TOKEN is not set. Please set GITHUB_TOKEN")]
  = Ok (true, ["GITHUB_TOKEN"])
  /\ true = nonempty ["GITHUB_TOKEN"].
Proof.
  unfold Script.extract.
  assert (Hrun : extract_auth_from_mcp_result Script.format_value Script.dedup
            [("success", VBool false);
             ("error", VStr "No response from server");
             ("stderr",
              VStr "Error: GITHUB_TOKEN is not set. Please set GITHUB_TOKEN")]
          = Ok (true, ["GITHUB_TOKEN"])) by (vm_compute; reflexivity).
  split; [exact Hrun |].
  exact (proj1 (required_iff_named Script.format_value Script.dedup
                  dedup_nodup dedup_in _ true ["GITHUB_TOKEN"] Hrun)).
Defined.

Lemma named_variables_are_tokens_witness :
  env_token 3 "GITHUB_TOKEN" = true
  /\ mentions error_keywords "GITHUB_TOKEN" = true.
Proof.
  assert (Hrun : extract_auth_from_mcp_result Script.format_value Script.dedup
            [("success", VBool false);
             ("error", VStr "No response from server");
             ("stderr",
              VStr "Error: GITHUB_TOKEN is not set. Please set GITHUB_TOKEN")]
          = Ok (true, ["GITHUB_TOKEN"])) by (vm_compute; reflexivity).
  exact (named_variables_are_tokens Script.format_value Script.dedup
           dedup_in
           [("success", VBool false);
            ("error", VStr "No response from server");
            ("stderr",
             VStr "Error: GITHUB_TOKEN is not set. Please set GITHUB_TOKEN")]
           true ["GITHUB_TOKEN"] "GITHUB_TOKEN"
           eq_refl eq_refl Hrun (or_introl eq_refl)).
Defined.

(** A connected server whose stderr mentions a key all the same. *)
Lemma connected_means_no_auth_witness :
  Script.extract
    [("success", VBool true);
     ("server_info", VDict [("name", VStr "auth-server");
                            ("version", VStr "1.0.0")]);
     ("stderr", VStr "warning: OPENAI_API_KEY is not set")]
  = Ok (false, []).
Proof.
  unfold Script.extract.
  apply (connected_means_no_auth Script.format_value Script.dedup).
  - reflexivity.
  - right. exists [("name", VStr "auth-server"); ("version", VStr "1.0.0")],
      "auth-server", "1.0.0".
    split; [reflexivity |]. split; reflexivity.
Defined.

(** The server that answers initialize with the number 5. *)
Lemma detector_accepts_failures_witness :
  exists d s vars,
    Script.connect Script.command (Script.serving [Script.line_number])
    = Returned d s
    /\ Script.extract d = Ok (nonempty vars, vars).
Proof.
  unfold Script.connect, Script.extract.
  assert (Hrun : exists d s,
             connect_to_mcp Script.child Script.process Script.dumps
               Script.loads Script.command
               (Script.start (Script.serving [Script.line_number]))
             = Returned d s
             /\ lookup "success" d = Some (VBool false)).
  { do 2 eexists. split; [vm_compute; reflexivity | reflexivity]. }
  destruct Hrun as (d & s & Hrun & Hfail).
  destruct (detector_accepts_failures Script.format_value Script.dedup
              dedup_in Script.child Script.process Script.dumps Script.loads
              Script.command
              (Script.start (Script.serving [Script.line_number]))
              s d Hrun Hfail) as [vars Hvars].
  exists d, s, vars. split; [exact Hrun | exact Hvars].
Defined.

(** The process that has exited with status 1. *)
Lemma failed_start_hides_auth_witness :
  exists d,
    Script.connect Script.command Script.exits_early
    = Returned d (Script.start Script.exits_early)
    /\ Script.extract d = Ok (false, []).
Proof.
  unfold Script.connect, Script.extract.
  destruct (failed_start_hides_auth Script.format_value (fun s => eq_refl)
              Script.dedup dedup_in Script.child Script.process
              Script.dumps Script.loads Script.command
              (Script.start Script.exits_early)
              (Script.start Script.exits_early) eq_refl)
    as (d & Hrun & _ & Hx).
  exists d. split; [exact Hrun | exact Hx].
Defined.

(** ** The category of a package *)

Lemma first_category_listed (table : list (string * list string))
  (text category : string) :
  first_category table text = Some category ->
  In category (map fst table).
Proof.
  induction table as [|[c keywords] table IH]; simpl; [discriminate |].
  destruct (any_in keywords text).
  - intros H. injection H as <-. now left.
  - intros H. right. now apply IH.
Qed.

(** X14: the category of a package is always one of the twenty valid
    categories of the database schema. *)
Theorem category_is_valid (name description : string) (tags : list string) :
  In (_determine_category name description tags) valid_categories.
Proof.
  unfold _determine_category.
  destruct (first_category category_keywords
              (category_text name description tags)) as [category|] eqn:H.
  - apply first_category_listed in H. exact H.
  - simpl. tauto.
Qed.

Lemma prefix_self_append (k post : string) : String.prefix k (k ++ post) = true.
Proof.
  induction k as [|a k IH]; simpl; [now destruct post |].
  destruct (ascii_dec a a); [exact IH | contradiction].
Qed.

Lemma contains_intro (k pre post : string) :
  contains k (pre ++ k ++ post) = true.
Proof.
  induction pre as [|c pre IH].
  - change (EmptyString ++ k ++ post)%string with (k ++ post)%string.
    pose proof (prefix_self_append k post) as H.
    destruct (k ++ post)%string; cbn [contains]; now rewrite H.
  - simpl. rewrite IH. apply orb_true_r.
Qed.

Lemma contains_elim (k s : string) :
  contains k s = true -> exists pre post, s = (pre ++ k ++ post)%string.
Proof.
  induction s as [|c s IH]; cbn [contains].
  - rewrite orb_false_r. intros H. apply prefix_append in H.
    destruct H as [r ->]. now exists EmptyString, r.
  - intros H. apply orb_prop in H. destruct H as [H|H].
    + apply prefix_append in H. destruct H as [r ->].
      now exists EmptyString, r.
    + destruct (IH H) as (pre & post & ->). now exists (String c pre), post.
Qed.

Lemma append_assoc (a b c : string) : ((a ++ b) ++ c = a ++ (b ++ c))%string.
Proof. induction a as [|x a IH]; simpl; [reflexivity | now rewrite IH]. Qed.

(** A text that contains a word contains every part of the word. *)
Lemma contains_part (part word text : string) :
  contains part word = true -> contains word text = true ->
  contains part text = true.
Proof.
  intros Hp Hw. apply contains_elim in Hp. apply contains_elim in Hw.
  destruct Hp as (a & b & ->). destruct Hw as (p & q & ->).
  replace (p ++ (a ++ part ++ b) ++ q)%string
    with ((p ++ a) ++ part ++ (b ++ q))%string
    by now rewrite !append_assoc.
  apply contains_intro.
Qed.

(** An entry whose keywords occur decides the category, unless an
    earlier entry does. *)
Lemma first_category_by (earlier later : list (string * list string))
  (category : string) (keywords : list string) (text : string) :
  any_in keywords text = true ->
  exists c,
    first_category (earlier ++ (category, keywords) :: later) text = Some c
    /\ In c (map fst earlier ++ [category]).
Proof.
  intros H. induction earlier as [|[c0 k0] earlier IH]; simpl.
  - rewrite H. exists category. split; [reflexivity | now left].
  - destruct (any_in k0 text).
    + exists c0. split; [reflexivity | now left].
    + destruct IH as (c & Hc & Hin). exists c. split; [exact Hc | now right].
Qed.

(** X15: a keyword that contains a keyword of an earlier category never
    decides. A package whose text mentions email contains ai, so it is
    put under databases, payments or ai-tools and never under
    communication; a package whose text mentions research contains
    search, so it is never put under research. *)
Theorem category_shadowing (name description : string) (tags : list string) :
  let text := category_text name description tags in
  let category := _determine_category name description tags in
  (contains "email" text = true ->
   In category ["databases"; "payments"; "ai-tools"])
  /\ (contains "research" text = true ->
      category <> "research" /\ category <> "communication"
      /\ category <> "iot").
Proof.
  intros text category. unfold category, _determine_category. fold text.
  split.
  - intros H.
    assert (Hai : any_in ["openai"; "anthropic"; "gpt"; "claude"; "ai";
                          "llm"; "ml"] text = true).
    { unfold any_in. apply existsb_exists. exists "ai". split.
      - simpl. tauto.
      - now apply (contains_part "ai" "email"). }
    destruct (first_category_by (firstn 2 category_keywords)
                (skipn 3 category_keywords) "ai-tools" _ text Hai)
      as (c & Hc & Hin).
    change (firstn 2 category_keywords ++ _ :: skipn 3 category_keywords)
      with category_keywords in Hc.
    rewrite Hc. exact Hin.
  - intros H.
    assert (Hweb : any_in ["api"; "rest"; "http"; "web"; "request";
                           "search"; "brave"] text = true).
    { unfold any_in. apply existsb_exists. exists "search". split.
      - simpl. tauto.
      - now apply (contains_part "search" "research"). }
    destruct (first_category_by (firstn 12 category_keywords)
                (skipn 13 category_keywords) "web-apis" _ text Hweb)
      as (c & Hc & Hin).
    change (firstn 12 category_keywords ++ _ :: skipn 13 category_keywords)
      with category_keywords in Hc.
    rewrite Hc. simpl in Hin.
    repeat (destruct Hin as [<-|Hin];
            [repeat split; discriminate |]).
    contradiction.
Qed.

(** A mail package. *)
Lemma category_shadowing_witness :
  In (_determine_category "mail-mcp" "Send email from an agent" ["smtp"])
     ["databases"; "payments"; "ai-tools"].
Proof.
  exact (proj1 (category_shadowing "mail-mcp" "Send email from an agent"
                  ["smtp"]) eq_refl).
Defined.

(** ** Set-up complexity *)

Lemma count_in_bound (indicators : list string) (text : string) :
  count_in indicators text <= List.length indicators.
Proof. unfold count_in. apply filter_length_le. Qed.

(** X16: the set-up of a package is complex exactly when its text
    mentions at least four of the six authentication indicators: the
    five configuration indicators can never number more than five, so
    on their own they make a set-up moderate at most. The tools are not
    looked at. *)
Theorem setup_complexity_by_auth (text : string) (tools : list value) :
  (_assess_setup_complexity text tools = "complex"
   <-> 4 <= count_in auth_indicators text)
  /\ (count_in auth_indicators text <= 1 ->
      _assess_setup_complexity text tools
      = if Nat.ltb 2 (count_in config_indicators text)
        then "moderate" else "simple")
  /\ _assess_setup_complexity text tools = _assess_setup_complexity text [].
Proof.
  pose proof (count_in_bound config_indicators text) as Hc.
  change (List.length config_indicators) with 5 in Hc.
  unfold _assess_setup_complexity.
  assert (Hdead : Nat.ltb 5 (count_in config_indicators text) = false)
    by (apply Nat.ltb_ge; exact Hc).
  rewrite Hdead, orb_false_r.
  split; [| split; [| reflexivity]].
  - destruct (Nat.ltb 3 (count_in auth_indicators text)) eqn:Ha.
    + apply Nat.ltb_lt in Ha. split; [lia | reflexivity].
    + apply Nat.ltb_ge in Ha. split; [| lia].
      destruct (orb _ _); discriminate.
  - intros Hle.
    assert (H3 : Nat.ltb 3 (count_in auth_indicators text) = false)
      by (apply Nat.ltb_ge; lia).
    assert (H1 : Nat.ltb 1 (count_in auth_indicators text) = false)
      by (apply Nat.ltb_ge; lia).
    now rewrite H3, H1.
Qed.

(** A text with all five configuration indicators and one
    authentication indicator. *)
Lemma setup_complexity_by_auth_witness :
  _assess_setup_complexity
    "config setup install database server with login" []
  = "moderate".
Proof.
  rewrite (proj1 (proj2 (setup_complexity_by_auth
             "config setup install database server with login" []))).
  - reflexivity.
  - vm_compute. lia.
Defined.

(** ** The GitHub URL of a package *)

(** A greedy repetition that can take all of [taken] and then meets a
    character outside the class, or the end, takes all of it when the
    continuation accepts what follows. *)
Lemma greedy_all {R} (p : ascii -> bool) (k : string -> option R) (r : R)
  (rest : string) :
  (match rest with
   | EmptyString => True
   | String c _ => p c = false
   end) ->
  k rest = Some r ->
  forall (taken : string) (n : nat),
    sall p taken = true -> n <= String.length taken ->
    Re.greedy p n (taken ++ rest) k = Some r.
Proof.
  intros Hrest Hk. induction taken as [|a taken IH]; intros n Hp Hn.
  - simpl in Hn. assert (n = 0) as -> by lia.
    simpl. destruct rest as [|c rest]; simpl; [exact Hk |].
    now rewrite Hrest.
  - simpl in Hp. apply andb_prop in Hp. destruct Hp as [Ha Hp].
    simpl. rewrite Ha. rewrite IH; [reflexivity | exact Hp |].
    simpl in Hn. lia.
Qed.

(** A lazy repetition goes on as long as the continuation refuses. *)
Lemma lazy_all {R} (p q : ascii -> bool) (k : string -> option R) (r : R)
  (rest : string) :
  (forall c, q c = true -> p c = true) ->
  (forall c s, q c = true -> k (String c s) = None) ->
  k rest = Some r ->
  forall taken : string,
    sall q taken = true -> Rx.lazy p (taken ++ rest) k = Some r.
Proof.
  intros Hqp Hrefuse Hk. induction taken as [|a taken IH]; intros Hq.
  - simpl. destruct rest; simpl; now rewrite Hk.
  - simpl in Hq. apply andb_prop in Hq. destruct Hq as [Ha Hq].
    simpl. rewrite (Hrefuse a _ Ha), (Hqp a Ha). now apply IH.
Qed.

Lemma name_char_not_slash (c : ascii) :
  name_char c = true -> Rx.accepts (Rx.NotChr "/") c = true.
Proof.
  unfold name_char. intros H. apply andb_prop in H. now destruct H as [H _].
Qed.

(** The alternatives that close the pattern all refuse a text that
    starts with a name character. *)
Lemma closing_refuses {R} (f : string -> option R) (c : ascii) (s : string) :
  name_char c = true ->
  Rx.match_any (Rx.after github_pattern) (String c s) f = None.
Proof.
  unfold name_char. intros H.
  apply andb_prop in H. destruct H as [Hslash H].
  apply andb_prop in H. destruct H as [Hdot Hnl].
  apply negb_true_iff in Hslash, Hdot, Hnl.
  cbn [github_pattern Rx.after Rx.match_any Rx.lits Rx.match_items Rx.accepts].
  rewrite Hdot, Hslash.
  unfold Rx.at_end, newline. cbn [is_empty orb String.eqb]. now rewrite Hnl.
Qed.

(** The pattern at the start of github.com, a separator, an owner, a
    slash, a repository name and an end. *)
Lemma github_match (sep : ascii) (owner repo tail : string) :
  sep = ":"%char \/ sep = "/"%char ->
  tail = ".git" \/ tail = EmptyString ->
  owner <> EmptyString -> repo <> EmptyString ->
  lacks "/" owner = true -> sall name_char repo = true ->
  Rx.match_at github_pattern
    ("github.com" ++ String sep (owner ++ "/" ++ repo ++ tail))
  = Some (owner ++ "/" ++ repo)%string.
Proof.
  intros Hsep Htail Howner Hrepo Hlacks Hname.
  unfold Rx.match_at.
  assert (Hbefore : forall (k : string -> option string) (s : string),
             Rx.match_items (Rx.before github_pattern)
               ("github.com" ++ String sep s) k = k s).
  { intros k s. destruct Hsep as [-> | ->]; reflexivity. }
  rewrite Hbefore.
  cbn [github_pattern Rx.group Rx.match_items].
  destruct repo as [|c repo]; [contradiction |].
  cbn [sall] in Hname. apply andb_prop in Hname. destruct Hname as [Hc Hname].
  set (s1 := (owner ++ "/" ++ String c repo ++ tail)%string).
  assert (Hgroup : sfirstn (String.length s1 - String.length tail) s1
                   = (owner ++ "/" ++ String c repo)%string).
  { unfold s1.
    replace (owner ++ "/" ++ String c repo ++ tail)%string
      with ((owner ++ "/" ++ String c repo) ++ tail)%string
      by (rewrite !append_assoc; reflexivity).
    rewrite length_append.
    replace (String.length (owner ++ "/" ++ String c repo)
             + String.length tail - String.length tail)
      with (String.length (owner ++ "/" ++ String c repo)) by lia.
    apply sfirstn_append. }
  apply greedy_all.
  - reflexivity.
  - cbn [append Rx.match_items].
    change (Rx.accepts (Rx.Chr "/") "/"%char) with true. cbv iota.
    rewrite (name_char_not_slash c Hc).
    apply (lazy_all (Rx.accepts (Rx.NotChr "/")) name_char).
    + apply name_char_not_slash.
    + intros c' s' Hc'. now apply closing_refuses.
    + etransitivity; [| apply f_equal; exact Hgroup].
      destruct Htail as [-> | ->]; reflexivity.
    + exact Hname.
  - exact Hlacks.
  - destruct owner; [contradiction | simpl; lia].
Qed.

Lemma append_empty (s : string) : (s ++ "")%string = s.
Proof. induction s as [|c s IH]; simpl; [reflexivity | now rewrite IH]. Qed.

Lemma search_found (p : Rx.pattern) (s g : string) :
  Rx.match_at p s = Some g -> Rx.search p s = Some g.
Proof. intros H. destruct s; simpl; now rewrite H. Qed.

Lemma clean_github_match (url g : string) :
  contains "github.com" url = true ->
  Rx.search github_pattern url = Some g ->
  clean_github_url (VStr url) = Ok ("https://github.com/" ++ g)%string.
Proof.
  intros Hc Hs. unfold clean_github_url, rbind, str_in, github_search.
  now rewrite Hc, Hs.
Qed.

(** X17: the usual notations of a GitHub repository are all normalised
    to the same https URL: for an owner without a slash and a repository
    name without slash, dot or newline, the git+https notation, the ssh
    notation and the plain https notation of the repository give
    https://github.com/owner/name. *)
Theorem github_url_normalised (version_info items : dict)
  (owner repo url : string) :
  dict_get version_info "repository" (VDict []) = VDict items ->
  dict_get items "url" (VStr "") = VStr url ->
  owner <> EmptyString -> repo <> EmptyString ->
  lacks "/" owner = true -> sall name_char repo = true ->
  In url ["git+https://github.com/" ++ owner ++ "/" ++ repo ++ ".git";
          "git@github.com:" ++ owner ++ "/" ++ repo ++ ".git";
          "https://github.com/" ++ owner ++ "/" ++ repo]%string ->
  _extract_github_url version_info
  = Ok ("https://github.com/" ++ owner ++ "/" ++ repo)%string.
Proof.
  intros Hrepo Hurl Howner Hname Hlacks Hchars Hin.
  unfold _extract_github_url. rewrite Hrepo, Hurl.
  pose proof (github_match "/" owner repo ".git" (or_intror eq_refl)
                (or_introl eq_refl) Howner Hname Hlacks Hchars) as H1.
  pose proof (github_match ":" owner repo ".git" (or_introl eq_refl)
                (or_introl eq_refl) Howner Hname Hlacks Hchars) as H2.
  pose proof (github_match "/" owner repo "" (or_intror eq_refl)
                (or_intror eq_refl) Howner Hname Hlacks Hchars) as H3.
  destruct Hin as [<-|[<-|[<-|[]]]].
  - apply clean_github_match; [reflexivity |].
    change (Rx.search github_pattern
              ("git+https://github.com/" ++ owner ++ "/" ++ repo ++ ".git"))
      with (Rx.search github_pattern
              ("github.com" ++ String "/" (owner ++ "/" ++ repo ++ ".git"))).
    now apply search_found.
  - apply clean_github_match; [reflexivity |].
    change (Rx.search github_pattern
              ("git@github.com:" ++ owner ++ "/" ++ repo ++ ".git"))
      with (Rx.search github_pattern
              ("github.com" ++ String ":" (owner ++ "/" ++ repo ++ ".git"))).
    now apply search_found.
  - assert (H : clean_github_url
                  (VStr ("https://github.com/" ++ owner ++ "/" ++ repo ++ ""))
                = Ok ("https://github.com/" ++ owner ++ "/" ++ repo)%string).
    { apply clean_github_match; [reflexivity |].
      change (Rx.search github_pattern
                ("https://github.com/" ++ owner ++ "/" ++ repo ++ ""))
        with (Rx.search github_pattern
                ("github.com" ++ String "/" (owner ++ "/" ++ repo ++ ""))).
      now apply search_found. }
    now rewrite append_empty in H.
Qed.

(** The repository entry of the filesystem server's package. *)
Lemma github_url_normalised_witness :
  _extract_github_url
    [("repository",
      VDict [("type", VStr "git");
             ("url", VStr "git+https://github.com/modelcontextprotocol/servers.git")])]
  = Ok "https://github.com/modelcontextprotocol/servers".
Proof.
  apply (github_url_normalised _
           [("type", VStr "git");
            ("url", VStr "git+https://github.com/modelcontextprotocol/servers.git")]
           "modelcontextprotocol" "servers"
           "git+https://github.com/modelcontextprotocol/servers.git").
  - reflexivity.
  - reflexivity.
  - discriminate.
  - discriminate.
  - reflexivity.
  - reflexivity.
  - left. reflexivity.
Defined.

Lemma clean_github_shape (v : value) (url : string) :
  clean_github_url v = Ok url ->
  url = EmptyString \/ startswith "http" url = true.
Proof.
  unfold clean_github_url, rbind.
  destruct (str_in "github.com" v) as [mentions_github|e]; [| discriminate].
  destruct (if mentions_github then github_search v else Ok None)
    as [[g|]|e]; [| | discriminate].
  - intros H. injection H as <-. right. reflexivity.
  - destruct (str_startswith "http" v) as [is_http|e] eqn:Hs; [| discriminate].
    destruct v; try discriminate.
    simpl in Hs. injection Hs as <-.
    intros H. injection H as <-.
    destruct (startswith "http" s) eqn:E; [now right | now left].
Qed.

(** X18: whatever the package metadata holds, a URL that
    [_extract_github_url] returns is empty or starts with http; and it
    is empty when there is no repository entry or when the entry is
    neither an object nor a string. *)
Theorem github_url_shape (version_info : dict) :
  (forall url, _extract_github_url version_info = Ok url ->
               url = EmptyString \/ startswith "http" url = true)
  /\ (lookup "repository" version_info = None ->
      _extract_github_url version_info = Ok EmptyString)
  /\ (forall v, lookup "repository" version_info = Some v ->
                is_object v = false ->
                (forall s, v <> VStr s) ->
                _extract_github_url version_info = Ok EmptyString).
Proof.
  split; [| split].
  - intros url. unfold _extract_github_url.
    destruct (dict_get version_info "repository" (VDict []));
      try (intros H; injection H as <-; now left);
      apply clean_github_shape.
  - intros H. unfold _extract_github_url, dict_get. rewrite H. reflexivity.
  - intros v H Hobj Hstr. unfold _extract_github_url, dict_get. rewrite H.
    destruct v; try reflexivity; [| discriminate].
    exfalso. now apply (Hstr s).
Qed.

(** A package whose repository is on another host, in git notation. *)
Lemma github_url_shape_witness :
  _extract_github_url [("repository", VStr "git://example.org/repo.git")]
  = Ok EmptyString.
Proof.
  destruct (proj1 (github_url_shape
                     [("repository", VStr "git://example.org/repo.git")])
              EmptyString eq_refl) as [H|H].
  - reflexivity.
  - discriminate H.
Defined.

(** ** How a connection attempt ends *)

Section Outcome.

Variable W : Type.
Variable P : Popen W.
Variable json_dumps : value -> string.
Variable json_loads : string -> res value.

Local Abbreviation start' := (_start_mcp_server W P).
Local Abbreviation negotiate' := (negotiate W P json_dumps json_loads).
Local Abbreviation list_tools' := (list_tools W P json_dumps json_loads).
Local Abbreviation list_extra' := (list_extra W P json_dumps json_loads).
Local Abbreviation list_additional' :=
  (list_additional W P json_dumps json_loads).
Local Abbreviation failed' := (communication_failed W P).
Local Abbreviation communicate' :=
  (_communicate_with_server W P json_dumps json_loads).
Local Abbreviation connect' := (connect_to_mcp W P json_dumps json_loads).




End Outcome.

